(** * The referendum pipeline of [pandas_questions.py]

    A shallow embedding of the four table transformations of the module
    ([merge_regions_and_departments], [merge_referendum_and_areas],
    [compute_referendum_result_by_regions], [plot_referendum_map]) and the
    properties of them that the specification states.

    Conventions of the embedding.
    - A DataFrame is the list of its rows, in row order; its index is the
      row position (the frames of the pipeline carry a unique index).
    - A cell of an object column is [option string]; [None] is the missing
      value (NaN).  Strings are sequences of code points below 256.
    - The count columns are int64 columns: values in [Z], sums and
      additions wrap around modulo [2^64] as numpy's do.
    - The ratio column is float64, modelled with the IEEE 754 binary64
      operations of [SpecFloat].
    - Files and the plot are outside the embedding: the geometry table read
      by [plot_referendum_map] is an argument of the model. *)

From Stdlib Require Import ZArith Lia Bool String Ascii DecimalString.
From Stdlib Require Import SpecFloat.
From stdpp Require Import base list sorting strings.

Open Scope Z_scope.

(** ** Python [str] operations used by the module *)

(** [str.isspace] on one code point (the code points below 256 that Python
    counts as whitespace): what [str.strip()] removes. *)
Definition py_isspace (c : ascii) : bool :=
  let n := N_of_ascii c in
  ((9 <=? n) && (n <=? 13) || (28 <=? n) && (n <=? 32)
   || (n =? 133) || (n =? 160))%N.

(** The regular expression class [\d] on one code point below 256. *)
Definition is_decimal (c : ascii) : bool :=
  let n := N_of_ascii c in ((48 <=? n) && (n <=? 57))%N.

Fixpoint lstrip_ws (s : string) : string :=
  match s with
  | EmptyString => EmptyString
  | String c s' => if py_isspace c then lstrip_ws s' else s
  end.

Definition is_empty (s : string) : bool :=
  match s with EmptyString => true | String _ _ => false end.

Fixpoint rstrip_ws (s : string) : string :=
  match s with
  | EmptyString => EmptyString
  | String c s' =>
      let t := rstrip_ws s' in
      if is_empty t && py_isspace c then EmptyString else String c t
  end.

(** [s.strip()] *)
Definition str_strip (s : string) : string := rstrip_ws (lstrip_ws s).

(** [s.lstrip("0")] *)
Fixpoint lstrip_zeros (s : string) : string :=
  match s with
  | EmptyString => EmptyString
  | String c s' => if Ascii.eqb c "0" then lstrip_zeros s' else s
  end.

Fixpoint all_decimal (s : string) : bool :=
  match s with
  | EmptyString => true
  | String c s' => is_decimal c && all_decimal s'
  end.

(** [re.fullmatch(r"\d{3}", s)] *)
Definition fullmatch_d3 (s : string) : bool :=
  all_decimal s && (String.length s =? 3)%nat.

(** [re.fullmatch(r"\d+", s)] *)
Definition fullmatch_dplus (s : string) : bool :=
  all_decimal s && negb (is_empty s).

(** [re.search("Z", s)]: the pattern is the single literal character. *)
Fixpoint contains_Z (s : string) : bool :=
  match s with
  | EmptyString => false
  | String c s' => Ascii.eqb c "Z" || contains_Z s'
  end.

(** [str(n)] for an integer. *)
Definition py_str_of_int (z : Z) : string :=
  NilZero.string_of_int (Z.to_int z).

(** ** Cells *)

(** [Series.astype(str)] on an object cell: a string is kept, the missing
    value becomes the string ["nan"]. *)
Definition astype_str (c : option string) : string :=
  match c with Some s => s | None => "nan" end.

(** [Series.str.contains("Z", na=False)] on one cell. *)
Definition str_contains_Z_na_false (c : option string) : bool :=
  match c with Some s => contains_Z s | None => false end.

(** A cell of the column "Town code": an integer, a string or missing. *)
Inductive town_cell : Type :=
| TownInt (z : Z)
| TownStr (s : string)
| TownNaN.

Definition town_astype_str (c : town_cell) : town_cell :=
  match c with
  | TownInt z => TownStr (py_str_of_int z)
  | TownStr s => TownStr s
  | TownNaN => TownStr "nan"
  end.

(** ** int64 arithmetic *)

Definition wrap64 (z : Z) : Z := (z + 2 ^ 63) mod 2 ^ 64 - 2 ^ 63.

Definition add64 (a b : Z) : Z := wrap64 (a + b).

(** [Series.sum()] of an int64 column. *)
Definition sum64 (l : list Z) : Z := fold_left add64 l 0.

Definition int64_range (z : Z) : Prop := - 2 ^ 63 <= z < 2 ^ 63.

(** The exact sum, for comparison with [sum64]. *)
Definition sumZ (l : list Z) : Z := fold_right Z.add 0 l.

(** ** Rows of the tables *)

(** regions.csv: columns code, name. *)
Record RegionRef : Type := mkRegionRef {
  reg_code : option string;
  reg_name : option string
}.

(** departments.csv: columns region_code, code, name. *)
Record DepartmentRef : Type := mkDepartmentRef {
  dep_region_code : option string;
  dep_code : option string;
  dep_name : option string
}.

(** The columns code_reg, name_reg, code_dep, name_dep. *)
Record AreaRow : Type := mkAreaRow {
  code_reg : option string;
  name_reg : option string;
  code_dep : option string;
  name_dep : option string
}.

(** referendum.csv: the columns the module reads. *)
Record BallotRow : Type := mkBallotRow {
  Department_code : option string;
  Town_code : town_cell;
  Registered : Z;
  Abstentions : Z;
  Null : Z;
  Choice_A : Z;
  Choice_B : Z
}.

(** A row of the merged table: the ballot columns followed by the four area
    columns, all four missing when the left join found no match. *)
Record JoinedRow : Type := mkJoinedRow {
  ballot : BallotRow;
  area : AreaRow
}.

Definition null_area : AreaRow := mkAreaRow None None None None.

(** A row of the aggregate, indexed by [res_code_reg]. *)
Record ResultRow : Type := mkResultRow {
  res_code_reg : string;
  res_name_reg : option string;
  res_Registered : Z;
  res_Abstentions : Z;
  res_Null : Z;
  res_Choice_A : Z;
  res_Choice_B : Z
}.

(** The geometry of a region is carried along and never inspected. *)
Definition Geometry : Type := string.

(** regions.geojson after the rename of "code" to "code_reg". *)
Record GeoRow : Type := mkGeoRow {
  geo_code_reg : option string;
  geometry : Geometry
}.

Record MapRow : Type := mkMapRow {
  map_geo : GeoRow;
  map_res : ResultRow;
  ratio : spec_float
}.

(** The five count columns. *)
Inductive CountColumn : Type :=
| ColRegistered | ColAbstentions | ColNull | ColChoiceA | ColChoiceB.

Definition ballot_count (c : CountColumn) (b : BallotRow) : Z :=
  match c with
  | ColRegistered => Registered b
  | ColAbstentions => Abstentions b
  | ColNull => Null b
  | ColChoiceA => Choice_A b
  | ColChoiceB => Choice_B b
  end.

Definition joined_count (c : CountColumn) (r : JoinedRow) : Z :=
  ballot_count c (ballot r).

Definition result_count (c : CountColumn) (r : ResultRow) : Z :=
  match c with
  | ColRegistered => res_Registered r
  | ColAbstentions => res_Abstentions r
  | ColNull => res_Null r
  | ColChoiceA => res_Choice_A r
  | ColChoiceB => res_Choice_B r
  end.

(** ** [DataFrame.merge] *)

(** Equality of join keys: pandas matches a missing key with a missing
    key. *)
Definition key_eqb (a b : option string) : bool :=
  match a, b with
  | Some x, Some y => String.eqb x y
  | None, None => true
  | _, _ => false
  end.

Section Merge.
Context {L R O : Type}.
Variable keyL : L -> option string.
Variable keyR : R -> option string.
Variable combine : L -> R -> O.

Definition matches (l : L) (rs : list R) : list R :=
  List.filter (fun r => key_eqb (keyL l) (keyR r)) rs.

(** [how="inner"]: left order, then right order. *)
Definition merge_inner (ls : list L) (rs : list R) : list O :=
  flat_map (fun l => map (combine l) (matches l rs)) ls.

(** [how="left"]: an unmatched left row is kept once, with [missing] on
    the right. *)
Definition merge_left (missing : L -> O) (ls : list L) (rs : list R)
  : list O :=
  flat_map (fun l =>
              match matches l rs with
              | [] => [missing l]
              | ms => map (combine l) ms
              end) ls.
End Merge.

(** ** Stage 1: [merge_regions_and_departments] *)

(** [pd.merge(df_dep, df_reg, left_on="region_code", right_on="code",
    suffixes=("_dep", "_reg"))], then the projection on the four columns
    (the [rename] finds no column "code" after the suffixes and changes
    nothing). *)
Definition merge_regions_and_departments
    (df_reg : list RegionRef) (df_dep : list DepartmentRef) : list AreaRow :=
  merge_inner dep_region_code reg_code
    (fun d r => mkAreaRow (reg_code r) (reg_name r) (dep_code d) (dep_name d))
    df_dep df_reg.

(** ** Stage 2: [merge_referendum_and_areas] *)

(** Line 56-58: the ballots whose department code does not contain "Z". *)
Definition drop_Z_ballots (referendum : list BallotRow) : list BallotRow :=
  List.filter (fun b => negb (str_contains_Z_na_false (Department_code b)))
    referendum.

(** Line 59: [s], per row. *)
Definition stripped_code (a : AreaRow) : string :=
  str_strip (astype_str (code_dep a)).

(** Line 62: [s.where(~s.str.fullmatch(r"\d+"), s.str.lstrip("0"))], per
    value of [s]. *)
Definition unpad (s : string) : string :=
  if negb (fullmatch_dplus s) then s else lstrip_zeros s.

(** The normalisation of one department code: lines 59 and 62. *)
Definition normalize_code (c : option string) : string :=
  unpad (str_strip (astype_str c)).

(** Lines 60-64: the filtered lookup table with its new code_dep column. *)
Definition assign_code_dep (a : AreaRow) (c : option string) : AreaRow :=
  mkAreaRow (code_reg a) (name_reg a) c (name_dep a).

Definition normalize_areas (regions_and_departments : list AreaRow)
  : list AreaRow :=
  map (fun a => assign_code_dep a (Some (unpad (stripped_code a))))
    (List.filter (fun a => negb (fullmatch_d3 (stripped_code a)))
       regions_and_departments).

(** Lines 66-68. *)
Definition merge_referendum_and_areas
    (referendum : list BallotRow) (regions_and_departments : list AreaRow)
  : list JoinedRow :=
  merge_left Department_code code_dep mkJoinedRow
    (fun b => mkJoinedRow b null_area)
    (drop_Z_ballots referendum) (normalize_areas regions_and_departments).

(** ** Stage 3: [compute_referendum_result_by_regions] *)

(** Lines 81-83: the new "Town code" column. *)
Definition town_code_as_str (t : list JoinedRow) : list JoinedRow :=
  map (fun r =>
         mkJoinedRow
           (mkBallotRow (Department_code (ballot r))
              (town_astype_str (Town_code (ballot r)))
              (Registered (ballot r)) (Abstentions (ballot r))
              (Null (ballot r)) (Choice_A (ballot r)) (Choice_B (ballot r)))
           (area r)) t.

Definition joined_code_reg (r : JoinedRow) : option string :=
  code_reg (area r).

(** The group keys of [groupby("code_reg")]: the distinct values that are
    not missing, sorted. *)
Definition group_keys (t : list JoinedRow) : list string :=
  merge_sort (fun a b => Is_true (String.leb a b))
    (remove_dups (omap joined_code_reg t)).

Definition group_rows (k : string) (t : list JoinedRow) : list JoinedRow :=
  List.filter (fun r => key_eqb (joined_code_reg r) (Some k)) t.

(** The aggregation "first": the first value of the group that is not
    missing. *)
Fixpoint agg_first (l : list (option string)) : option string :=
  match l with
  | [] => None
  | Some s :: _ => Some s
  | None :: l' => agg_first l'
  end.

Definition agg_sum (c : CountColumn) (g : list JoinedRow) : Z :=
  sum64 (map (joined_count c) g).

Definition aggregate (k : string) (g : list JoinedRow) : ResultRow :=
  mkResultRow k
    (agg_first (map (fun r => name_reg (area r)) g))
    (agg_sum ColRegistered g) (agg_sum ColAbstentions g)
    (agg_sum ColNull g) (agg_sum ColChoiceA g) (agg_sum ColChoiceB g).

Definition groupby_code_reg_agg (t : list JoinedRow) : list ResultRow :=
  map (fun k => aggregate k (group_rows k t)) (group_keys t).

(** The value returned by the function; the assignment of lines 81-83
    comes first and the aggregation reads the frame it has written. *)
Definition compute_referendum_result_by_regions
    (referendum_and_areas : list JoinedRow) : list ResultRow :=
  groupby_code_reg_agg (town_code_as_str referendum_and_areas).

(** ** Stage 4: [plot_referendum_map] *)

(** The conversion of an int64 to float64 that the true division makes. *)
Definition float_of_int64 (z : Z) : spec_float :=
  binary_normalize 53 1024 z 0 false.

Definition float64_div (x y : spec_float) : spec_float :=
  SFdiv 53 1024 x y.

(** Line 111, per row: [a / (a + b)] on int64 columns. *)
Definition compute_ratio (a b : Z) : spec_float :=
  float64_div (float_of_int64 a) (float_of_int64 (add64 a b)).

(** Line 110: the inner join of the geometry with the aggregate, whose
    index code_reg is the right key. *)
Definition merge_geo (gdf : list GeoRow) (res : list ResultRow)
  : list (GeoRow * ResultRow) :=
  merge_inner geo_code_reg (fun r => Some (res_code_reg r)) pair gdf res.

Definition with_ratio (m : list (GeoRow * ResultRow)) : list MapRow :=
  map (fun gr =>
         mkMapRow (fst gr) (snd gr)
           (compute_ratio (res_Choice_A (snd gr)) (res_Choice_B (snd gr)))) m.

Definition plot_referendum_map
    (gdf : list GeoRow) (referendum_result_by_regions : list ResultRow)
  : list MapRow :=
  with_ratio (merge_geo gdf referendum_result_by_regions).

(** The float64 constants 0.0 and 1.0. *)
Definition float_zero : spec_float := S754_zero false.
Definition float_one : spec_float := S754_finite false (2 ^ 52) (-52).

Definition float64_leb (x y : spec_float) : bool := SFleb x y.

(** ** The stages as calls on frame objects

    Python passes frames by reference.  The store holds the frame objects
    of a run, a reference is a position in it, and a call is a state
    transformer that may raise ([None]). *)

Inductive Frame : Type :=
| FRegions (t : list RegionRef)
| FDepartments (t : list DepartmentRef)
| FAreas (t : list AreaRow)
| FBallots (t : list BallotRow)
| FJoined (t : list JoinedRow)
| FResult (t : list ResultRow)
| FGeo (t : list GeoRow)
| FGeoResult (t : list (GeoRow * ResultRow))
| FMap (t : list MapRow).

Abbreviation Store := (list Frame).
Abbreviation ref := nat (only parsing).

Definition M (A : Type) : Type := Store -> option (A * Store).

Definition ret {A} (a : A) : M A := fun st => Some (a, st).

Definition bind {A B} (m : M A) (k : A -> M B) : M B :=
  fun st => match m st with
            | Some (a, st') => k a st'
            | None => None
            end.

Notation "x <- m ;; k" := (bind m (fun x => k))
  (at level 100, m at next level, right associativity).

(** Reading the object behind a reference. *)
Definition deref (p : ref) : M Frame :=
  fun st => match st !! p with
            | Some f => Some (f, st)
            | None => None
            end.

(** A new frame object. *)
Definition alloc (f : Frame) : M ref :=
  fun st => Some (length st, st ++ [f]).

(** Writing into an existing object. *)
Definition assign (p : ref) (f : Frame) : M unit :=
  fun st => match st !! p with
            | Some _ => Some (tt, <[p := f]> st)
            | None => None
            end.

Definition raise {A} : M A := fun _ => None.

Definition call_merge_regions_and_departments (df_reg df_dep : ref) : M ref :=
  fr <- deref df_reg ;;
  fd <- deref df_dep ;;
  match fr, fd with
  | FRegions regs, FDepartments deps =>
      alloc (FAreas (merge_regions_and_departments regs deps))
  | _, _ => raise
  end.

Definition call_merge_referendum_and_areas
    (referendum regions_and_departments : ref) : M ref :=
  fb <- deref referendum ;;
  fa <- deref regions_and_departments ;;
  match fb, fa with
  | FBallots bs, FAreas ars =>
      alloc (FJoined (merge_referendum_and_areas bs ars))
  | _, _ => raise
  end.

(** The assignment of lines 81-83 writes the column into the frame the
    caller passed. *)
Definition call_compute_referendum_result_by_regions
    (referendum_and_areas : ref) : M ref :=
  f <- deref referendum_and_areas ;;
  match f with
  | FJoined t =>
      _ <- assign referendum_and_areas (FJoined (town_code_as_str t)) ;;
      f' <- deref referendum_and_areas ;;
      match f' with
      | FJoined t' => alloc (FResult (groupby_code_reg_agg t'))
      | _ => raise
      end
  | _ => raise
  end.

(** [geojson] is the content of the file that [gpd.read_file] loads; the
    assignment of line 111 writes into the frame the merge has made. *)
Definition call_plot_referendum_map
    (geojson : list GeoRow) (referendum_result_by_regions : ref) : M ref :=
  gdf <- alloc (FGeo geojson) ;;
  fg <- deref gdf ;;
  fr <- deref referendum_result_by_regions ;;
  match fg, fr with
  | FGeo g, FResult res =>
      map_ <- alloc (FGeoResult (merge_geo g res)) ;;
      fm <- deref map_ ;;
      match fm with
      | FGeoResult m =>
          _ <- assign map_ (FMap (with_ratio m)) ;;
          ret map_
      | _ => raise
      end
  | _, _ => raise
  end.

(** ** The main program (lines 120-134) *)



(** The tables that the main program computes from the file contents. *)
Definition pipeline_joined (referendum_csv : list BallotRow)
    (regions_csv : list RegionRef) (departments_csv : list DepartmentRef)
  : list JoinedRow :=
  merge_referendum_and_areas referendum_csv
    (merge_regions_and_departments regions_csv departments_csv).

Definition pipeline_result (referendum_csv : list BallotRow)
    (regions_csv : list RegionRef) (departments_csv : list DepartmentRef)
  : list ResultRow :=
  compute_referendum_result_by_regions
    (pipeline_joined referendum_csv regions_csv departments_csv).

(** ** Predicates used in the statements *)

(** A string that does not begin with whitespace. *)
Definition no_lead_ws (s : string) : bool :=
  match s with
  | EmptyString => true
  | String c _ => negb (py_isspace c)
  end.

(** A string that does not end with whitespace. *)
Fixpoint no_trail_ws (s : string) : bool :=
  match s with
  | EmptyString => true
  | String c EmptyString => negb (py_isspace c)
  | String _ s' => no_trail_ws s'
  end.

Fixpoint all_ws (s : string) : bool :=
  match s with
  | EmptyString => true
  | String c s' => py_isspace c && all_ws s'
  end.

(** A string that does not begin with the character "0". *)
Definition no_lead_zero (s : string) : bool :=
  match s with
  | EmptyString => true
  | String c _ => negb (Ascii.eqb c "0")
  end.

(** [n] times the character "0". *)
Fixpoint zeros (n : nat) : string :=
  match n with
  | O => EmptyString
  | S n' => String "0" (zeros n')
  end.

(** The rows of a merged table whose region code is not missing. *)
Definition has_region (r : JoinedRow) : bool :=
  match joined_code_reg r with Some _ => true | None => false end.

Definition retained_rows (t : list JoinedRow) : list JoinedRow :=
  List.filter has_region t.

(** The exact total of [f] over the rows of the group [k]. *)
Definition group_total (f : JoinedRow -> Z) (t : list JoinedRow) (k : string)
  : Z :=
  sumZ (map f (group_rows k t)).

(** ** Auxiliary definitions for float64 rounding *)

(** The record after [k] shifts of an exact integer [a]. *)
Definition shifted (a : Z) (k : nat) : shr_record :=
  match k with
  | O => Build_shr_record a false false
  | S k' => Build_shr_record (a / 2 ^ Z.of_nat k) (Z.testbit a (Z.of_nat k'))
              (negb (a mod 2 ^ Z.of_nat k' =? 0))
  end.

(** The last step of [binary_round_aux]: the float made of a shifted
    mantissa and its exponent. *)
Definition finish (mrs_e : shr_record * Z) : spec_float :=
  let '(mrs, e) := mrs_e in
  match shr_m mrs with
  | Z0 => S754_zero false
  | Zpos m => if e <=? 1024 - 53 then S754_finite false m e
              else S754_infinity false
  | Zneg _ => S754_nan
  end.

(** The mantissa that round-to-nearest-even gives [a] after [k] shifts. *)
Definition rnd (a : Z) (k : nat) : Z :=
  round_nearest_even (shr_m (shifted a k)) (loc_of_shr_record (shifted a k)).

(** The float64 nearest to a positive integer below [2^63]: mantissa and
    exponent. *)
Definition int_digits (a : Z) : Z := Zdigits2 a.

Definition mant (a : Z) : Z :=
  let n := int_digits a in
  if n <=? 53 then a * 2 ^ (53 - n)
  else let m1 := rnd a (Z.to_nat (n - 53)) in
       if m1 <? 2 ^ 53 then m1 else 2 ^ 52.

Definition expo (a : Z) : Z :=
  let n := int_digits a in
  if n <=? 53 then n - 53
  else if rnd a (Z.to_nat (n - 53)) <? 2 ^ 53 then n - 53 else n - 52.

(** A ballot that reaches a region: its department code has no "Z" and is
    the normalised code of a lookup row whose region code is not missing. *)
Definition reaches_a_region (areas : list AreaRow) (b : BallotRow) : bool :=
  negb (str_contains_Z_na_false (Department_code b))
  && existsb (fun a => match code_reg a with Some _ => true | None => false end)
       (matches Department_code code_dep b (normalize_areas areas)).

(** * Properties *)

(** ** Strings *)

Lemma decimal_not_space (c : ascii) : is_decimal c = true -> py_isspace c = false.
Proof.
  destruct c as [[] [] [] [] [] [] [] []]; vm_compute; congruence.
Qed.

Lemma lstrip_ws_no_lead (s : string) : no_lead_ws (lstrip_ws s) = true.
Proof.
  induction s as [|c s IH]; simpl; [reflexivity|].
  destruct (py_isspace c) eqn:E; [exact IH|]. simpl. now rewrite E.
Qed.

Lemma lstrip_ws_fix (s : string) : no_lead_ws s = true -> lstrip_ws s = s.
Proof.
  destruct s as [|c s]; simpl; [reflexivity|].
  destruct (py_isspace c); simpl; congruence.
Qed.

Lemma rstrip_ws_idem (s : string) : rstrip_ws (rstrip_ws s) = rstrip_ws s.
Proof.
  induction s as [|c s IH]; simpl; [reflexivity|].
  destruct (is_empty (rstrip_ws s) && py_isspace c) eqn:E; simpl;
    [reflexivity|].
  now rewrite IH, E.
Qed.

Lemma rstrip_ws_no_lead (s : string) :
  no_lead_ws s = true -> no_lead_ws (rstrip_ws s) = true.
Proof.
  destruct s as [|c s]; simpl; [reflexivity|].
  destruct (py_isspace c) eqn:E; simpl; [discriminate|].
  intros _. rewrite andb_false_r. simpl. now rewrite E.
Qed.

Lemma str_strip_idem (s : string) : str_strip (str_strip s) = str_strip s.
Proof.
  unfold str_strip.
  rewrite (lstrip_ws_fix (rstrip_ws (lstrip_ws s))).
  - apply rstrip_ws_idem.
  - apply rstrip_ws_no_lead, lstrip_ws_no_lead.
Qed.

Lemma all_decimal_strip (s : string) : all_decimal s = true -> str_strip s = s.
Proof.
  intros H. unfold str_strip.
  assert (L : lstrip_ws s = s).
  { destruct s as [|c s]; [reflexivity|]. simpl in *.
    apply andb_prop in H as [H _].
    now rewrite (decimal_not_space _ H). }
  rewrite L. clear L.
  induction s as [|c s IH]; simpl in *; [reflexivity|].
  apply andb_prop in H as [Hc Hs].
  rewrite (decimal_not_space _ Hc), andb_false_r.
  now rewrite (IH Hs).
Qed.

Lemma lstrip_zeros_decimal (s : string) :
  all_decimal s = true -> all_decimal (lstrip_zeros s) = true.
Proof.
  induction s as [|c s IH]; simpl; [reflexivity|].
  intros H. destruct (Ascii.eqb c "0").
  - apply andb_prop in H as [_ H]. auto.
  - exact H.
Qed.

Lemma lstrip_zeros_idem (s : string) :
  lstrip_zeros (lstrip_zeros s) = lstrip_zeros s.
Proof.
  induction s as [|c s IH]; simpl; [reflexivity|].
  destruct (Ascii.eqb c "0") eqn:E; [exact IH|]. simpl. now rewrite E.
Qed.

Lemma unpad_idem (s : string) :
  str_strip s = s -> unpad (str_strip (unpad s)) = unpad s.
Proof.
  intros Hs. unfold unpad at 2 3.
  destruct (fullmatch_dplus s) eqn:E; simpl.
  - unfold fullmatch_dplus in E. apply andb_prop in E as [Hd _].
    pose proof (lstrip_zeros_decimal _ Hd) as Hd'.
    rewrite (all_decimal_strip _ Hd'). unfold unpad.
    destruct (fullmatch_dplus (lstrip_zeros s)); simpl;
      [apply lstrip_zeros_idem | reflexivity].
  - rewrite Hs. unfold unpad. now rewrite E.
Qed.

Lemma normalize_code_idem (c : option string) :
  normalize_code (Some (normalize_code c)) = normalize_code c.
Proof.
  unfold normalize_code. simpl.
  apply unpad_idem, str_strip_idem.
Qed.

Lemma append_cons (c : ascii) (a b : string) :
  String c a +:+ b = String c (a +:+ b).
Proof. reflexivity. Qed.

Lemma lstrip_ws_split (s : string) :
  exists l, s = l +:+ lstrip_ws s /\ all_ws l = true.
Proof.
  induction s as [|c s [l [E W]]]; simpl.
  - now exists EmptyString.
  - destruct (py_isspace c) eqn:Hc.
    + exists (String c l). split.
      * rewrite append_cons. f_equal. exact E.
      * simpl. rewrite Hc. exact W.
    + now exists EmptyString.
Qed.

Lemma rstrip_ws_empty_all_ws (s : string) :
  is_empty (rstrip_ws s) = true -> all_ws s = true.
Proof.
  induction s as [|c s IH]; simpl; [reflexivity|].
  destruct (is_empty (rstrip_ws s)) eqn:E; simpl.
  - destruct (py_isspace c); simpl; [auto | discriminate].
  - discriminate.
Qed.

Lemma rstrip_ws_split (s : string) :
  exists r, s = rstrip_ws s +:+ r /\ all_ws r = true.
Proof.
  induction s as [|c s [r [E W]]]; simpl.
  - now exists EmptyString.
  - destruct (is_empty (rstrip_ws s) && py_isspace c) eqn:H.
    + apply andb_prop in H as [H1 H2].
      exists (String c s). simpl. rewrite H2. split; [reflexivity|].
      now rewrite (rstrip_ws_empty_all_ws _ H1).
    + exists r. split; [rewrite append_cons; f_equal; exact E | exact W].
Qed.

Lemma rstrip_ws_no_trail (s : string) : no_trail_ws (rstrip_ws s) = true.
Proof.
  induction s as [|c s IH]; simpl; [reflexivity|].
  destruct (rstrip_ws s) as [|d t] eqn:E; simpl in *.
  - destruct (py_isspace c) eqn:Hc; simpl; [reflexivity | now rewrite Hc].
  - exact IH.
Qed.

Lemma str_strip_spec (s : string) :
  exists l r, s = l +:+ str_strip s +:+ r /\ all_ws l = true /\ all_ws r = true
              /\ no_lead_ws (str_strip s) = true
              /\ no_trail_ws (str_strip s) = true.
Proof.
  destruct (lstrip_ws_split s) as [l [El Wl]].
  destruct (rstrip_ws_split (lstrip_ws s)) as [r [Er Wr]].
  exists l, r. unfold str_strip. repeat split; auto.
  - now rewrite <- Er.
  - apply rstrip_ws_no_lead, lstrip_ws_no_lead.
  - apply rstrip_ws_no_trail.
Qed.

Lemma lstrip_zeros_spec (s : string) :
  exists n, s = zeros n +:+ lstrip_zeros s /\ no_lead_zero (lstrip_zeros s) = true.
Proof.
  induction s as [|c s [n [E Z]]]; simpl.
  - now exists O.
  - destruct (Ascii.eqb c "0") eqn:Hc.
    + apply Ascii.eqb_eq in Hc. subst c. exists (S n).
      split; [simpl; rewrite append_cons; f_equal; exact E | exact Z].
    + exists O. simpl. now rewrite Hc.
Qed.

Lemma fullmatch_d3_spec (s : string) :
  fullmatch_d3 s = true <->
  exists c1 c2 c3, s = String c1 (String c2 (String c3 EmptyString))
                   /\ is_decimal c1 = true /\ is_decimal c2 = true
                   /\ is_decimal c3 = true.
Proof.
  unfold fullmatch_d3. split.
  - intros H. apply andb_prop in H as [D L].
    destruct s as [|c1 [|c2 [|c3 [|c4 s]]]]; simpl in L; try discriminate.
    simpl in D. exists c1, c2, c3.
    destruct (is_decimal c1), (is_decimal c2), (is_decimal c3);
      simpl in D; try discriminate. auto.
  - intros (c1 & c2 & c3 & -> & H1 & H2 & H3). simpl. now rewrite H1, H2, H3.
Qed.

Lemma contains_Z_app (pre post : string) :
  contains_Z (pre +:+ String "Z" post) = true.
Proof.
  induction pre as [|c pre IH]; [reflexivity|].
  rewrite append_cons. simpl. rewrite IH. apply orb_true_r.
Qed.

Lemma contains_Z_split (s : string) :
  contains_Z s = true -> exists pre post, s = pre +:+ String "Z" post.
Proof.
  induction s as [|c s IH]; simpl; [discriminate|].
  destruct (Ascii.eqb c "Z") eqn:E; simpl.
  - intros _. apply Ascii.eqb_eq in E. subst c. now exists EmptyString, s.
  - intros H. destruct (IH H) as (pre & post & ->).
    now exists (String c pre), post.
Qed.

(** ** Joins *)

Lemma key_eqb_eq (a b : option string) : key_eqb a b = true <-> a = b.
Proof.
  destruct a as [x|], b as [y|]; simpl; try (split; congruence).
  rewrite String.eqb_eq. split; congruence.
Qed.

Section MergeFacts.
Context {L R O : Type}.
Variable keyL : L -> option string.
Variable keyR : R -> option string.
Variable combine : L -> R -> O.
Variable missing : L -> O.

Lemma matches_In (l : L) (rs : list R) (r : R) :
  In r (matches keyL keyR l rs) <-> In r rs /\ keyL l = keyR r.
Proof. unfold matches. now rewrite filter_In, key_eqb_eq. Qed.

Lemma matches_none (l : L) (rs : list R) :
  (forall r, In r rs -> keyR r <> keyL l) -> matches keyL keyR l rs = [].
Proof.
  intros H. destruct (matches keyL keyR l rs) as [|r ms] eqn:E;
    [reflexivity|].
  assert (I : In r (matches keyL keyR l rs)) by (rewrite E; now left).
  apply matches_In in I as [I K]. now destruct (H r I).
Qed.

Lemma merge_left_app (l1 l2 : list L) (rs : list R) :
  merge_left keyL keyR combine missing (l1 ++ l2) rs
  = merge_left keyL keyR combine missing l1 rs
    ++ merge_left keyL keyR combine missing l2 rs.
Proof. unfold merge_left. apply flat_map_app. Qed.

Lemma merge_left_In (ls : list L) (rs : list R) (o : O) :
  In o (merge_left keyL keyR combine missing ls rs) <->
  exists l, In l ls /\
    ((matches keyL keyR l rs = [] /\ o = missing l)
     \/ exists r, In r (matches keyL keyR l rs) /\ o = combine l r).
Proof.
  unfold merge_left. rewrite in_flat_map. split.
  - intros (l & Il & Io). exists l. split; [exact Il|].
    destruct (matches keyL keyR l rs) as [|r ms] eqn:E.
    + left. destruct Io as [<-|[]]. auto.
    + right. apply in_map_iff in Io as (r' & <- & Ir). eauto.
  - intros (l & Il & [[E ->]|(r & Ir & ->)]); exists l; split; auto.
    + rewrite E. now left.
    + destruct (matches keyL keyR l rs) as [|r0 ms] eqn:E; [destruct Ir|].
      now apply in_map.
Qed.
End MergeFacts.

(** ** The normalised lookup table *)

Lemma normalize_areas_app (t1 t2 : list AreaRow) :
  normalize_areas (t1 ++ t2) = normalize_areas t1 ++ normalize_areas t2.
Proof. unfold normalize_areas. now rewrite List.filter_app, map_app. Qed.

Lemma normalize_areas_cons (a : AreaRow) (t : list AreaRow) :
  normalize_areas (a :: t)
  = (if fullmatch_d3 (stripped_code a) then []
     else [assign_code_dep a (Some (unpad (stripped_code a)))])
    ++ normalize_areas t.
Proof.
  unfold normalize_areas. simpl.
  now destruct (fullmatch_d3 (stripped_code a)).
Qed.

Lemma normalize_areas_In (t : list AreaRow) (a' : AreaRow) :
  In a' (normalize_areas t) <->
  exists a, In a t /\ fullmatch_d3 (stripped_code a) = false
            /\ a' = assign_code_dep a (Some (normalize_code (code_dep a))).
Proof.
  unfold normalize_areas. rewrite in_map_iff. split.
  - intros (a & <- & I). apply filter_In in I as [I K].
    exists a. apply negb_true_iff in K. auto.
  - intros (a & I & K & ->). exists a. split; [reflexivity|].
    apply filter_In. now rewrite K.
Qed.

Lemma normalize_areas_key (t : list AreaRow) (a' : AreaRow) :
  In a' (normalize_areas t) -> code_dep a' <> None.
Proof.
  intros H. apply normalize_areas_In in H as (a & _ & _ & ->). discriminate.
Qed.

Lemma drop_Z_ballots_app (r1 r2 : list BallotRow) :
  drop_Z_ballots (r1 ++ r2) = drop_Z_ballots r1 ++ drop_Z_ballots r2.
Proof. apply List.filter_app. Qed.

Lemma merge_referendum_and_areas_app (r1 r2 : list BallotRow) (t : list AreaRow) :
  merge_referendum_and_areas (r1 ++ r2) t
  = merge_referendum_and_areas r1 t ++ merge_referendum_and_areas r2 t.
Proof.
  unfold merge_referendum_and_areas.
  now rewrite drop_Z_ballots_app, merge_left_app.
Qed.

Lemma merge_referendum_and_areas_In (referendum : list BallotRow)
    (t : list AreaRow) (j : JoinedRow) :
  In j (merge_referendum_and_areas referendum t) <->
  exists b, In b referendum
    /\ str_contains_Z_na_false (Department_code b) = false
    /\ ((matches Department_code code_dep b (normalize_areas t) = []
         /\ j = mkJoinedRow b null_area)
        \/ exists a, In a (normalize_areas t)
                     /\ Department_code b = code_dep a
                     /\ j = mkJoinedRow b a).
Proof.
  unfold merge_referendum_and_areas. rewrite merge_left_In. split.
  - intros (b & Ib & H). unfold drop_Z_ballots in Ib.
    apply filter_In in Ib as [Ib Z]. apply negb_true_iff in Z.
    exists b. repeat split; auto.
    destruct H as [H|(a & Ia & ->)]; [now left|right].
    apply matches_In in Ia as [Ia K]. eauto.
  - intros (b & Ib & Z & H). exists b. split.
    + unfold drop_Z_ballots. apply filter_In. now rewrite Z.
    + destruct H as [H|(a & Ia & K & ->)]; [now left|right].
      exists a. split; [|reflexivity]. now apply matches_In.
Qed.

(** ** Claims on [merge_referendum_and_areas] *)

(** C2.  In [merge_referendum_and_areas] the lookup table is normalised row
    by row.  For a row [a] at any position, with [s] its department code
    stripped of surrounding whitespace: [s] is the code without its leading
    and trailing whitespace; the row is dropped when [s] is exactly three
    decimal digits, and is otherwise kept, in place, with the code [unpad s];
    [unpad s] is [s] without its leading zeros when [s] is a non-empty run of
    digits, and [s] itself when it is not; the join is made on that table,
    so that a lookup code "07" joins a ballot whose department code is
    "7". *)
Theorem area_codes_are_normalized_before_the_join
    (t1 t2 : list AreaRow) (a : AreaRow) :
  let s := str_strip (astype_str (code_dep a)) in
  (exists l r, astype_str (code_dep a) = l +:+ s +:+ r
               /\ all_ws l = true /\ all_ws r = true
               /\ no_lead_ws s = true /\ no_trail_ws s = true)
  /\ normalize_areas (t1 ++ a :: t2)
     = normalize_areas t1
       ++ (if fullmatch_d3 s then [] else [assign_code_dep a (Some (unpad s))])
       ++ normalize_areas t2
  /\ (fullmatch_d3 s = true <->
      exists c1 c2 c3, s = String c1 (String c2 (String c3 EmptyString))
                       /\ is_decimal c1 = true /\ is_decimal c2 = true
                       /\ is_decimal c3 = true)
  /\ (fullmatch_dplus s = true ->
      exists n, s = zeros n +:+ unpad s /\ no_lead_zero (unpad s) = true)
  /\ (fullmatch_dplus s = false -> unpad s = s)
  /\ (forall referendum,
        merge_referendum_and_areas referendum (t1 ++ a :: t2)
        = merge_left Department_code code_dep mkJoinedRow
            (fun b => mkJoinedRow b null_area)
            (drop_Z_ballots referendum) (normalize_areas (t1 ++ a :: t2)))
  /\ (forall b, Department_code b = Some "7" -> code_dep a = Some "07" ->
        merge_referendum_and_areas [b] [a]
        = [mkJoinedRow b (assign_code_dep a (Some "7"))]).
Proof.
  intros s.
  refine (conj _ (conj _ (conj _ (conj _ (conj _ (conj _ _)))))).
  - apply str_strip_spec.
  - rewrite normalize_areas_app, normalize_areas_cons. reflexivity.
  - apply fullmatch_d3_spec.
  - intros H. unfold unpad. rewrite H. simpl. apply lstrip_zeros_spec.
  - intros H. unfold unpad. now rewrite H.
  - reflexivity.
  - intros b Hb Ha. clear s t1 t2.
    destruct a as [cr nr cd nd], b as [dc tc n1 n2 n3 n4 n5].
    simpl in Hb, Ha. subst dc cd. reflexivity.
Qed.

(** C8.  The normalisation of a department code (strip the whitespace, then
    strip the leading zeros of an all-digit code) is idempotent, and it is
    the function that gives every row of the normalised lookup table its
    code. *)
Theorem department_code_normalization_is_idempotent :
  (forall c : option string,
     normalize_code (Some (normalize_code c)) = normalize_code c)
  /\ (forall (t : list AreaRow) (a' : AreaRow),
        a' ∈ normalize_areas t ->
        exists a, a ∈ t /\ code_dep a' = Some (normalize_code (code_dep a))).
Proof.
  split.
  - apply normalize_code_idem.
  - intros t a' H. apply list_elem_of_In, normalize_areas_In in H.
    destruct H as (a & I & _ & ->). exists a.
    split; [now apply list_elem_of_In | reflexivity].
Qed.

(** C4.  Every row of the merged table carries a ballot of the input whose
    department code, when it is a string, has no occurrence of the character
    "Z"; and a ballot whose department code is missing is kept (with no
    area, since no lookup code is missing after the normalisation). *)
Theorem no_Z_department_in_the_merged_table
    (referendum : list BallotRow) (areas : list AreaRow) :
  (forall j, j ∈ merge_referendum_and_areas referendum areas ->
     ballot j ∈ referendum
     /\ forall s pre post, Department_code (ballot j) = Some s ->
                           s <> pre +:+ String "Z" post)
  /\ (forall r1 b r2, referendum = r1 ++ b :: r2 ->
        Department_code b = None ->
        merge_referendum_and_areas referendum areas
        = merge_referendum_and_areas r1 areas
          ++ [mkJoinedRow b null_area]
          ++ merge_referendum_and_areas r2 areas).
Proof.
  split.
  - intros j H. apply list_elem_of_In, merge_referendum_and_areas_In in H.
    destruct H as (b & Ib & Z & H).
    assert (E : ballot j = b) by (destruct H as [[_ ->]|(a & _ & _ & ->)];
                                  reflexivity).
    rewrite E. split; [now apply list_elem_of_In|].
    intros s pre post Hs ->. rewrite Hs in Z. simpl in Z.
    now rewrite contains_Z_app in Z.
  - intros r1 b r2 -> Hb.
    change (b :: r2) with ([b] ++ r2).
    rewrite !merge_referendum_and_areas_app. do 2 f_equal.
    unfold merge_referendum_and_areas, drop_Z_ballots. simpl.
    rewrite Hb. simpl. unfold merge_left. simpl.
    rewrite matches_none; [reflexivity|].
    intros a Ia. rewrite Hb. exact (normalize_areas_key _ _ Ia).
Qed.

(** C7.  The join is a left join: a ballot that passes the "Z" filter and
    whose department code is the code of no row of the normalised lookup
    table appears in the merged table, once and at its place, with the four
    area columns missing. *)
Theorem unmatched_ballot_is_kept_with_null_area
    (r1 r2 : list BallotRow) (b : BallotRow) (areas : list AreaRow) :
  str_contains_Z_na_false (Department_code b) = false ->
  (forall a, a ∈ normalize_areas areas -> code_dep a <> Department_code b) ->
  exists j,
    merge_referendum_and_areas (r1 ++ b :: r2) areas
    = merge_referendum_and_areas r1 areas ++ [j]
      ++ merge_referendum_and_areas r2 areas
    /\ ballot j = b
    /\ code_reg (area j) = None /\ name_reg (area j) = None
    /\ code_dep (area j) = None /\ name_dep (area j) = None.
Proof.
  intros Z U. exists (mkJoinedRow b null_area). repeat split.
  change (b :: r2) with ([b] ++ r2).
  rewrite !merge_referendum_and_areas_app. do 2 f_equal.
  unfold merge_referendum_and_areas, drop_Z_ballots. simpl.
  rewrite Z. simpl. unfold merge_left. simpl.
  rewrite matches_none; [reflexivity|].
  intros a Ia. apply U. now apply list_elem_of_In.
Qed.

Lemma unmatched_ballot_is_kept_with_null_area_witness :
  exists j,
    merge_referendum_and_areas
      ([] ++ mkBallotRow (Some "99") (TownInt 1) 100 10 2 50 38 :: [])
      [mkAreaRow (Some "84") (Some "Auvergne") (Some "07") (Some "Ardeche")]
    = merge_referendum_and_areas []
        [mkAreaRow (Some "84") (Some "Auvergne") (Some "07") (Some "Ardeche")]
      ++ [j]
      ++ merge_referendum_and_areas []
           [mkAreaRow (Some "84") (Some "Auvergne") (Some "07") (Some "Ardeche")]
    /\ ballot j = mkBallotRow (Some "99") (TownInt 1) 100 10 2 50 38
    /\ code_reg (area j) = None /\ name_reg (area j) = None
    /\ code_dep (area j) = None /\ name_dep (area j) = None.
Proof.
  apply (unmatched_ballot_is_kept_with_null_area [] []
           (mkBallotRow (Some "99") (TownInt 1) 100 10 2 50 38)
           [mkAreaRow (Some "84") (Some "Auvergne") (Some "07")
              (Some "Ardeche")]).
  - reflexivity.
  - intros a Ha. apply list_elem_of_In in Ha. simpl in Ha.
    destruct Ha as [<-|[]]. discriminate.
Defined.

(** A lookup code made of one or two zeros is normalised to the empty
    string, which is the department code of a ballot that an empty string
    was given for: the claim C10 that no ballot can match fails there. *)
Lemma zero_code_matches_the_empty_department_code :
  ~ (forall (a : AreaRow) (b : BallotRow),
       code_dep a = Some "0" \/ code_dep a = Some "00" ->
       normalize_areas [a] = [assign_code_dep a (Some "")]
       /\ matches Department_code code_dep b (normalize_areas [a]) = []).
Proof.
  intros H.
  destruct (H (mkAreaRow (Some "84") (Some "Region") (Some "00") (Some "Dept"))
              (mkBallotRow (Some "") (TownInt 1) 100 10 2 50 38)
              (or_intror eq_refl)) as [_ E].
  discriminate E.
Qed.

(** C10, amended.  A lookup row whose department code is one or two zeros
    gets the empty string as its normalised code and stays in the lookup
    table, at its place; the ballots it matches in the join are those whose
    department code is the empty string, and no ballot whose code is missing
    or is a non-empty string. *)
Theorem zero_code_is_kept_with_the_empty_code
    (t1 t2 : list AreaRow) (a : AreaRow) (n : nat) :
  (0 < n < 3)%nat ->
  code_dep a = Some (zeros n) ->
  normalize_code (code_dep a) = ""
  /\ normalize_areas (t1 ++ a :: t2)
     = normalize_areas t1 ++ [assign_code_dep a (Some "")]
       ++ normalize_areas t2
  /\ forall b : BallotRow,
       matches Department_code code_dep b [assign_code_dep a (Some "")]
       = if decide (Department_code b = Some "")
         then [assign_code_dep a (Some "")] else [].
Proof.
  intros Hn Ha.
  assert (E : code_dep a = Some "0" \/ code_dep a = Some "00").
  { destruct n as [|[|[|n]]]; try lia; simpl in Ha; auto. }
  refine (conj _ (conj _ _)).
  - destruct E as [-> | ->]; reflexivity.
  - rewrite normalize_areas_app, normalize_areas_cons.
    unfold stripped_code. destruct E as [-> | ->]; reflexivity.
  - intros b. unfold matches. simpl.
    destruct (decide (Department_code b = Some "")) as [e|e].
    + rewrite e. reflexivity.
    + destruct (Department_code b) as [[|c s]|]; simpl; congruence.
Qed.

Lemma zero_code_is_kept_with_the_empty_code_witness :
  normalize_code (Some "00") = ""
  /\ normalize_areas
       ([] ++ mkAreaRow (Some "84") (Some "Region") (Some "00") (Some "Dept")
           :: [])
     = normalize_areas []
       ++ [mkAreaRow (Some "84") (Some "Region") (Some "") (Some "Dept")]
       ++ normalize_areas []
  /\ forall b : BallotRow,
       matches Department_code code_dep b
         [mkAreaRow (Some "84") (Some "Region") (Some "") (Some "Dept")]
       = if decide (Department_code b = Some "")
         then [mkAreaRow (Some "84") (Some "Region") (Some "") (Some "Dept")]
         else [].
Proof.
  apply (zero_code_is_kept_with_the_empty_code [] []
           (mkAreaRow (Some "84") (Some "Region") (Some "00") (Some "Dept"))
           2%nat).
  - lia.
  - reflexivity.
Defined.

(** ** int64 sums *)

Lemma wrap64_add_l (a b : Z) : wrap64 (wrap64 a + b) = wrap64 (a + b).
Proof.
  unfold wrap64. f_equal.
  replace ((a + 2 ^ 63) mod 2 ^ 64 - 2 ^ 63 + b + 2 ^ 63)
    with ((a + 2 ^ 63) mod 2 ^ 64 + b) by lia.
  rewrite Zplus_mod_idemp_l. f_equal. lia.
Qed.

Lemma wrap64_add_r (a b : Z) : wrap64 (a + wrap64 b) = wrap64 (a + b).
Proof. rewrite Z.add_comm, wrap64_add_l. f_equal. lia. Qed.

Lemma wrap64_small (a : Z) : int64_range a -> wrap64 a = a.
Proof.
  unfold int64_range, wrap64. intros H.
  rewrite Z.mod_small; lia.
Qed.

Lemma fold_add64 (l : list Z) (a : Z) :
  fold_left add64 l (wrap64 a) = wrap64 (a + sumZ l).
Proof.
  revert a. induction l as [|x l IH]; intros a; simpl.
  - f_equal. lia.
  - unfold add64 at 2. rewrite wrap64_add_l, IH. f_equal. lia.
Qed.

Lemma sum64_sumZ (l : list Z) : sum64 l = wrap64 (sumZ l).
Proof.
  unfold sum64. change 0 with (wrap64 0) at 1. now rewrite fold_add64.
Qed.

Lemma sumZ_nonneg (l : list Z) : (forall x, In x l -> 0 <= x) -> 0 <= sumZ l.
Proof.
  induction l as [|x l IH]; simpl; intros H; [lia|].
  pose proof (H x (or_introl eq_refl)).
  assert (0 <= sumZ l) by (apply IH; intros; apply H; now right). lia.
Qed.

Lemma wrap64_sumZ_map {A} (g : A -> Z) (ks : list A) :
  wrap64 (sumZ (map (fun k => wrap64 (g k)) ks)) = wrap64 (sumZ (map g ks)).
Proof.
  induction ks as [|k ks IH]; simpl; [reflexivity|].
  rewrite wrap64_add_l, <- wrap64_add_r, IH, wrap64_add_r. reflexivity.
Qed.

(** ** Grouping *)

Lemma group_keys_elem (t : list JoinedRow) (k : string) :
  k ∈ group_keys t <-> exists r, r ∈ t /\ joined_code_reg r = Some k.
Proof.
  unfold group_keys.
  rewrite merge_sort_Permutation, elem_of_remove_dups.
  apply list_elem_of_omap.
Qed.

Lemma group_keys_NoDup (t : list JoinedRow) : NoDup (group_keys t).
Proof.
  unfold group_keys. rewrite merge_sort_Permutation.
  apply NoDup_remove_dups.
Qed.

Lemma group_rows_cons (k : string) (r : JoinedRow) (t : list JoinedRow) :
  group_rows k (r :: t)
  = if key_eqb (joined_code_reg r) (Some k) then r :: group_rows k t
    else group_rows k t.
Proof. reflexivity. Qed.

Lemma sumZ_map_zero {A} (g : A -> Z) (l : list A) :
  (forall x, g x = 0) -> sumZ (map g l) = 0.
Proof.
  intros H. induction l as [|x l IH]; simpl; [reflexivity|].
  rewrite H, IH. reflexivity.
Qed.

Section Partition.
Variable f : JoinedRow -> Z.

Lemma sumZ_indicator (ks : list string) (k0 : string) (v : Z) :
  NoDup ks -> k0 ∈ ks ->
  sumZ (map (fun k => if String.eqb k0 k then v else 0) ks) = v.
Proof.
  induction 1 as [|k ks Hk Hks IH]; intros Hin.
  - now apply elem_of_nil in Hin.
  - simpl. apply elem_of_cons in Hin as [->|Hin].
    + rewrite String.eqb_refl.
      assert (Z0 : sumZ (map (fun k1 => if String.eqb k k1 then v else 0) ks)
                   = 0).
      { clear IH Hks. induction ks as [|k1 ks IH]; simpl; [reflexivity|].
        apply not_elem_of_cons in Hk as [Hne Hk].
        destruct (String.eqb_spec k k1); [congruence|].
        now rewrite IH. }
      lia.
    + destruct (String.eqb_spec k0 k) as [->|_]; [contradiction|].
      now rewrite IH.
Qed.

Lemma sumZ_map_add {A} (g h : A -> Z) (l : list A) :
  sumZ (map (fun x => g x + h x) l) = sumZ (map g l) + sumZ (map h l).
Proof. induction l as [|x l IH]; simpl; lia. Qed.

Lemma group_total_cons (r : JoinedRow) (t : list JoinedRow) (k : string) :
  group_total f (r :: t) k
  = (match joined_code_reg r with
     | Some k0 => if String.eqb k0 k then f r else 0
     | None => 0
     end) + group_total f t k.
Proof.
  unfold group_total. rewrite group_rows_cons.
  destruct (joined_code_reg r) as [k0|]; simpl; [|reflexivity].
  now destruct (String.eqb k0 k).
Qed.

(** The groups partition the rows that have a region code. *)
Lemma groups_partition (ks : list string) (t : list JoinedRow) :
  NoDup ks ->
  (forall r k, r ∈ t -> joined_code_reg r = Some k -> k ∈ ks) ->
  sumZ (map (group_total f t) ks) = sumZ (map f (retained_rows t)).
Proof.
  intros Hnd. induction t as [|r t IH]; intros Hcov.
  - now apply sumZ_map_zero.
  - rewrite (map_ext _ _ (group_total_cons r t)), sumZ_map_add.
    rewrite IH by (intros r' k Hr'; apply Hcov; now right).
    unfold retained_rows, has_region. simpl.
    destruct (joined_code_reg r) as [k0|] eqn:E; simpl.
    + rewrite sumZ_indicator; [reflexivity | exact Hnd |].
      apply (Hcov r k0); [now left | exact E].
    + now rewrite sumZ_map_zero.
Qed.
End Partition.

Lemma town_code_as_str_code_reg (t : list JoinedRow) :
  map joined_code_reg (town_code_as_str t) = map joined_code_reg t.
Proof. unfold town_code_as_str. rewrite map_map. reflexivity. Qed.

Lemma omap_as_map {A B} (g : A -> option B) (l : list A) :
  omap g l = omap id (map g l).
Proof.
  induction l as [|x l IH]; simpl; [reflexivity|].
  destruct (g x); [f_equal|]; exact IH.
Qed.

Lemma group_keys_town (t : list JoinedRow) :
  group_keys (town_code_as_str t) = group_keys t.
Proof.
  unfold group_keys.
  now rewrite (omap_as_map _ (town_code_as_str t)), town_code_as_str_code_reg,
    <- omap_as_map.
Qed.

Lemma group_rows_town (k : string) (t : list JoinedRow) :
  group_rows k (town_code_as_str t) = town_code_as_str (group_rows k t).
Proof.
  unfold group_rows, town_code_as_str. now rewrite filter_map_swap.
Qed.

Lemma town_code_as_str_count (c : CountColumn) (t : list JoinedRow) :
  map (joined_count c) (town_code_as_str t) = map (joined_count c) t.
Proof.
  unfold town_code_as_str. rewrite map_map. apply map_ext.
  intros r. now destruct c.
Qed.

Lemma retained_rows_town (t : list JoinedRow) :
  retained_rows (town_code_as_str t) = town_code_as_str (retained_rows t).
Proof.
  unfold retained_rows, town_code_as_str. now rewrite filter_map_swap.
Qed.

Lemma result_count_aggregate (c : CountColumn) (k : string)
    (g : list JoinedRow) :
  result_count c (aggregate k g) = agg_sum c g.
Proof. now destruct c. Qed.

Lemma result_column (c : CountColumn) (t : list JoinedRow) :
  map (result_count c) (compute_referendum_result_by_regions t)
  = map (fun k => sum64 (map (joined_count c) (group_rows k t)))
      (group_keys t).
Proof.
  unfold compute_referendum_result_by_regions, groupby_code_reg_agg.
  rewrite map_map, group_keys_town. apply map_ext. intros k.
  rewrite result_count_aggregate. unfold agg_sum.
  now rewrite group_rows_town, town_code_as_str_count.
Qed.

Lemma group_keys_cover (t : list JoinedRow) (r : JoinedRow) (k : string) :
  r ∈ t -> joined_code_reg r = Some k -> k ∈ group_keys t.
Proof. intros. apply group_keys_elem. eauto. Qed.

Lemma sumZ_elem_le (l : list Z) (x : Z) :
  (forall y, In y l -> 0 <= y) -> In x l -> 0 <= x <= sumZ l.
Proof.
  induction l as [|y l IH]; simpl; intros Hpos Hin; [destruct Hin|].
  pose proof (Hpos y (or_introl eq_refl)).
  assert (0 <= sumZ l) by (apply sumZ_nonneg; auto).
  destruct Hin as [->|Hin]; [lia|].
  assert (0 <= x <= sumZ l) by (apply IH; auto). lia.
Qed.

Lemma group_rows_In (k : string) (t : list JoinedRow) (r : JoinedRow) :
  In r (group_rows k t) <-> In r t /\ joined_code_reg r = Some k.
Proof. unfold group_rows. now rewrite filter_In, key_eqb_eq. Qed.

Lemma group_total_nonneg (f : JoinedRow -> Z) (t : list JoinedRow) (k : string) :
  (forall r, r ∈ t -> 0 <= f r) -> 0 <= group_total f t k.
Proof.
  intros H. apply sumZ_nonneg. intros x Hx.
  apply in_map_iff in Hx as (r & <- & Hr).
  apply group_rows_In in Hr as [Hr _]. now apply H, list_elem_of_In.
Qed.

Lemma retained_keys (t : list JoinedRow) :
  omap joined_code_reg (retained_rows t) = omap joined_code_reg t.
Proof.
  induction t as [|r t IH]; [reflexivity|].
  unfold retained_rows, has_region in *. simpl.
  destruct (joined_code_reg r) eqn:E; simpl; [rewrite E; f_equal|]; exact IH.
Qed.

Lemma retained_group_rows (k : string) (t : list JoinedRow) :
  group_rows k (retained_rows t) = group_rows k t.
Proof.
  unfold group_rows, retained_rows.
  induction t as [|r t IH]; [reflexivity|].
  simpl. unfold has_region at 1.
  destruct (joined_code_reg r) as [k0|] eqn:E; simpl.
  - rewrite E. simpl. now rewrite IH.
  - exact IH.
Qed.

Lemma groupby_retained (t : list JoinedRow) :
  groupby_code_reg_agg (retained_rows t) = groupby_code_reg_agg t.
Proof.
  unfold groupby_code_reg_agg, group_keys. rewrite retained_keys.
  apply map_ext. intros k. now rewrite retained_group_rows.
Qed.

Lemma result_keys (t : list JoinedRow) :
  map res_code_reg (compute_referendum_result_by_regions t) = group_keys t.
Proof.
  unfold compute_referendum_result_by_regions, groupby_code_reg_agg.
  rewrite map_map, group_keys_town. simpl. apply map_id.
Qed.

(** ** Claims on [compute_referendum_result_by_regions] *)

(** C1.  For each of the five count columns, the sum of the column over the
    rows of the result equals its sum over the rows of the input whose
    region code is not missing: as int64 sums (the sums the frames
    compute), always; and as exact integer sums when the counts of the
    column are non-negative and their total over those rows fits int64. *)
Theorem totals_are_conserved_by_grouping
    (t : list JoinedRow) (c : CountColumn) :
  sum64 (map (result_count c) (compute_referendum_result_by_regions t))
  = sum64 (map (joined_count c) (retained_rows t))
  /\ ((forall r, r ∈ t -> 0 <= joined_count c r) ->
      sumZ (map (joined_count c) (retained_rows t)) < 2 ^ 63 ->
      sumZ (map (result_count c) (compute_referendum_result_by_regions t))
      = sumZ (map (joined_count c) (retained_rows t))).
Proof.
  pose proof (groups_partition (joined_count c) (group_keys t) t
                (group_keys_NoDup t)
                (fun r k Hr Hk => group_keys_cover t r k Hr Hk)) as P.
  rewrite result_column. split.
  - rewrite !sum64_sumZ.
    rewrite (map_ext _ (fun k => wrap64 (group_total (joined_count c) t k)))
      by (intros k; apply sum64_sumZ).
    now rewrite wrap64_sumZ_map, P.
  - intros Hpos Hfit. rewrite <- P.
    apply (f_equal sumZ), map_ext_in. intros k Hk.
    rewrite sum64_sumZ. apply wrap64_small.
    fold (group_total (joined_count c) t k).
    assert (B : 0 <= group_total (joined_count c) t k
                <= sumZ (map (group_total (joined_count c) t) (group_keys t))).
    { apply sumZ_elem_le.
      - intros y Hy. apply in_map_iff in Hy as (k' & <- & _).
        now apply group_total_nonneg.
      - now apply in_map. }
    unfold int64_range. lia.
Qed.

(** The example of the specification: two ballots of one region. *)
Example totals_of_two_ballots :
  compute_referendum_result_by_regions
    [mkJoinedRow (mkBallotRow (Some "7") (TownInt 1) 100 20 10 40 30)
       (mkAreaRow (Some "84") (Some "Region A") (Some "7") (Some "Dept X"));
     mkJoinedRow (mkBallotRow (Some "7") (TownInt 2) 50 30 5 10 5)
       (mkAreaRow (Some "84") (Some "Region A") (Some "7") (Some "Dept X"))]
  = [mkResultRow "84" (Some "Region A") 150 50 15 50 35].
Proof. reflexivity. Qed.

(** C5.  The rows whose region code is missing are dropped by the grouping:
    removing them from the input does not change the result.  The codes of
    the result rows are pairwise distinct and are exactly the region codes
    that occur in the input; each row is keyed by its code and holds, in
    each count column, the sum over the input rows that have that code. *)
Theorem one_result_row_per_region_code (t : list JoinedRow) :
  let res := compute_referendum_result_by_regions t in
  NoDup (map res_code_reg res)
  /\ (forall k, k ∈ map res_code_reg res <->
                exists r, r ∈ t /\ joined_code_reg r = Some k)
  /\ (forall row, row ∈ res ->
        forall c, result_count c row
                  = sum64 (map (joined_count c)
                             (group_rows (res_code_reg row) t)))
  /\ (forall k r, r ∈ group_rows k t <-> r ∈ t /\ joined_code_reg r = Some k)
  /\ res = compute_referendum_result_by_regions (retained_rows t).
Proof.
  intros res. subst res.
  refine (conj _ (conj _ (conj _ (conj _ _)))).
  - rewrite result_keys. apply group_keys_NoDup.
  - intros k. rewrite result_keys. apply group_keys_elem.
  - intros row Hrow c. apply list_elem_of_In in Hrow.
    unfold compute_referendum_result_by_regions, groupby_code_reg_agg in Hrow.
    apply in_map_iff in Hrow as (k & <- & _).
    rewrite result_count_aggregate. unfold agg_sum. simpl.
    now rewrite group_rows_town, town_code_as_str_count.
  - intros k r. rewrite !list_elem_of_In. apply group_rows_In.
  - unfold compute_referendum_result_by_regions.
    now rewrite <- retained_rows_town, groupby_retained.
Qed.

(** ** The stages as calls: what they do to the store *)

Lemma lookup_alloc_old (st : Store) (f g : Frame) (q : nat) :
  st !! q = Some f -> (st ++ [g]) !! q = Some f.
Proof. intros H. now apply lookup_app_l_Some. Qed.

Lemma lookup_alloc_new (st : Store) (g : Frame) :
  st !! length st = None /\ (st ++ [g]) !! length st = Some g.
Proof.
  split.
  - apply lookup_ge_None. lia.
  - rewrite lookup_app_r by lia. now rewrite Nat.sub_diag.
Qed.

Lemma call_merge_regions_and_departments_run
    (st : Store) (pr pd : ref) regs deps :
  st !! pr = Some (FRegions regs) -> st !! pd = Some (FDepartments deps) ->
  call_merge_regions_and_departments pr pd st
  = Some (length st, st ++ [FAreas (merge_regions_and_departments regs deps)]).
Proof.
  intros Hr Hd.
  unfold call_merge_regions_and_departments, bind, deref.
  now rewrite Hr, Hd.
Qed.

Lemma call_merge_referendum_and_areas_run
    (st : Store) (pb pa : ref) bs ars :
  st !! pb = Some (FBallots bs) -> st !! pa = Some (FAreas ars) ->
  call_merge_referendum_and_areas pb pa st
  = Some (length st, st ++ [FJoined (merge_referendum_and_areas bs ars)]).
Proof.
  intros Hb Ha.
  unfold call_merge_referendum_and_areas, bind, deref.
  now rewrite Hb, Ha.
Qed.

Lemma call_compute_referendum_result_by_regions_run
    (st : Store) (p : ref) t :
  st !! p = Some (FJoined t) ->
  call_compute_referendum_result_by_regions p st
  = Some (length st,
          <[p := FJoined (town_code_as_str t)]> st
          ++ [FResult (compute_referendum_result_by_regions t)]).
Proof.
  intros H.
  unfold call_compute_referendum_result_by_regions, bind, deref, assign.
  rewrite H. cbv beta iota. rewrite H. cbv beta iota.
  rewrite list_lookup_insert_eq by (now apply lookup_lt_Some in H).
  unfold alloc. now rewrite length_insert.
Qed.

Lemma call_plot_referendum_map_run (st : Store) (geo : list GeoRow) (p : ref) res :
  st !! p = Some (FResult res) ->
  call_plot_referendum_map geo p st
  = Some (S (length st),
          st ++ [FGeo geo; FMap (plot_referendum_map geo res)]).
Proof.
  intros H.
  unfold call_plot_referendum_map, bind, deref, assign, alloc, ret.
  destruct (lookup_alloc_new st (FGeo geo)) as [_ Hg]. rewrite Hg.
  rewrite (lookup_alloc_old st _ (FGeo geo) p H).
  destruct (lookup_alloc_new (st ++ [FGeo geo])
              (FGeoResult (merge_geo geo res))) as [_ Hm].
  rewrite Hm. cbv beta iota. rewrite Hm.
  rewrite insert_app_r_alt by lia. rewrite Nat.sub_diag. simpl.
  rewrite length_app, Nat.add_1_r. now rewrite <- app_assoc.
Qed.

Lemma town_code_as_str_lookup (t : list JoinedRow) (i : nat) (r : JoinedRow) :
  t !! i = Some r ->
  exists r', town_code_as_str t !! i = Some r'
    /\ area r' = area r
    /\ Department_code (ballot r') = Department_code (ballot r)
    /\ Town_code (ballot r') = town_astype_str (Town_code (ballot r))
    /\ forall c, joined_count c r' = joined_count c r.
Proof.
  revert i. induction t as [|x t IH]; intros [|i] H; simpl in H;
    try discriminate.
  - injection H as ->. eexists. split; [reflexivity|].
    repeat split.
  - apply (IH i H).
Qed.

(** ** Claims on the frame objects *)

(** [compute_referendum_result_by_regions] writes into the frame it is
    given: the claim C3 that no stage changes its arguments fails on a
    merged table whose "Town code" column holds integers. *)
Lemma compute_result_overwrites_town_code_of_its_argument :
  ~ (forall (st st' : Store) (p r : ref),
       call_compute_referendum_result_by_regions p st = Some (r, st') ->
       forall q f, st !! q = Some f -> st' !! q = Some f).
Proof.
  intros H.
  pose (row := mkJoinedRow (mkBallotRow (Some "7") (TownInt 1) 100 20 10 40 30)
                 (mkAreaRow (Some "84") (Some "Region A") (Some "7")
                    (Some "Dept X"))).
  specialize (H [FJoined [row]] _ 0%nat _ eq_refl 0%nat (FJoined [row]) eq_refl).
  discriminate H.
Qed.

(** C3, amended.  [merge_regions_and_departments],
    [merge_referendum_and_areas] and [plot_referendum_map] return a new
    frame and leave every frame that existed before the call as it was, their
    arguments included.  [compute_referendum_result_by_regions] returns a new
    frame too, leaves every frame other than its argument as it was, and
    replaces the "Town code" column of its argument by its conversion to
    strings: the argument keeps its rows, in order, with their department
    code, their count columns and their area columns. *)
Theorem stages_and_the_frames_they_are_given (st : Store) :
  (forall pr pd regs deps,
     st !! pr = Some (FRegions regs) -> st !! pd = Some (FDepartments deps) ->
     exists r st',
       call_merge_regions_and_departments pr pd st = Some (r, st')
       /\ (forall q f, st !! q = Some f -> st' !! q = Some f)
       /\ st !! r = None
       /\ st' !! r = Some (FAreas (merge_regions_and_departments regs deps)))
  /\ (forall pb pa bs ars,
        st !! pb = Some (FBallots bs) -> st !! pa = Some (FAreas ars) ->
        exists r st',
          call_merge_referendum_and_areas pb pa st = Some (r, st')
          /\ (forall q f, st !! q = Some f -> st' !! q = Some f)
          /\ st !! r = None
          /\ st' !! r = Some (FJoined (merge_referendum_and_areas bs ars)))
  /\ (forall geo p res,
        st !! p = Some (FResult res) ->
        exists r st',
          call_plot_referendum_map geo p st = Some (r, st')
          /\ (forall q f, st !! q = Some f -> st' !! q = Some f)
          /\ st !! r = None
          /\ st' !! r = Some (FMap (plot_referendum_map geo res)))
  /\ (forall p t,
        st !! p = Some (FJoined t) ->
        exists r st',
          call_compute_referendum_result_by_regions p st = Some (r, st')
          /\ (forall q f, q <> p -> st !! q = Some f -> st' !! q = Some f)
          /\ st' !! p = Some (FJoined (town_code_as_str t))
          /\ length (town_code_as_str t) = length t
          /\ (forall i row, t !! i = Some row ->
                exists row', town_code_as_str t !! i = Some row'
                  /\ area row' = area row
                  /\ Department_code (ballot row')
                     = Department_code (ballot row)
                  /\ Town_code (ballot row')
                     = town_astype_str (Town_code (ballot row))
                  /\ forall c, joined_count c row' = joined_count c row)
          /\ st !! r = None
          /\ st' !! r
             = Some (FResult (compute_referendum_result_by_regions t))).
Proof.
  refine (conj _ (conj _ (conj _ _))).
  - intros pr pd regs deps Hr Hd. eexists _, _.
    split; [exact (call_merge_regions_and_departments_run _ _ _ _ _ Hr Hd)|].
    split; [intros q f; apply lookup_alloc_old|]. apply lookup_alloc_new.
  - intros pb pa bs ars Hb Ha. eexists _, _.
    split; [exact (call_merge_referendum_and_areas_run _ _ _ _ _ Hb Ha)|].
    split; [intros q f; apply lookup_alloc_old|]. apply lookup_alloc_new.
  - intros geo p res H. eexists _, _.
    split; [exact (call_plot_referendum_map_run _ geo _ _ H)|].
    split; [|split].
    + intros q f Hq. now apply lookup_app_l_Some.
    + apply lookup_ge_None. lia.
    + rewrite lookup_app_r by lia.
      now replace (S (length st) - length st)%nat with 1%nat by lia.
  - intros p t H. pose proof (lookup_lt_Some _ _ _ H) as Hlt.
    eexists _, _.
    split; [exact (call_compute_referendum_result_by_regions_run _ _ _ H)|].
    split; [|split; [|split; [|split; [|split]]]].
    + intros q f Hne Hq. apply lookup_app_l_Some.
      now rewrite list_lookup_insert_ne.
    + apply lookup_app_l_Some. now apply list_lookup_insert_eq.
    + unfold town_code_as_str. apply length_map.
    + apply town_code_as_str_lookup.
    + apply lookup_ge_None. lia.
    + rewrite lookup_app_r by (rewrite length_insert; lia).
      now rewrite length_insert, Nat.sub_diag.
Qed.

(** A run of the third stage: the caller's frame has changed. *)
Example compute_result_run :
  call_compute_referendum_result_by_regions 0%nat
    [FJoined [mkJoinedRow (mkBallotRow (Some "7") (TownInt 1) 100 20 10 40 30)
                (mkAreaRow (Some "84") (Some "Region A") (Some "7")
                   (Some "Dept X"))]]
  = Some (1%nat,
          [FJoined [mkJoinedRow
                      (mkBallotRow (Some "7") (TownStr "1") 100 20 10 40 30)
                      (mkAreaRow (Some "84") (Some "Region A") (Some "7")
                         (Some "Dept X"))];
           FResult [mkResultRow "84" (Some "Region A") 100 20 10 40 30]]).
Proof. reflexivity. Qed.

(** ** float64: conversion of an int64 and division *)

Lemma digits2_pos_size (p : positive) : digits2_pos p = Pos.size p.
Proof. induction p; simpl; congruence. Qed.

Lemma digits2_bounds (p : positive) :
  2 ^ (Zpos (digits2_pos p) - 1) <= Zpos p < 2 ^ Zpos (digits2_pos p).
Proof.
  rewrite digits2_pos_size.
  pose proof (Pos.size_gt p) as G. pose proof (Pos.size_le p) as L.
  apply Pos2Z.pos_lt_pos in G. apply Pos2Z.pos_le_pos in L.
  rewrite Pos2Z.inj_pow in G, L.
  change (Zpos p~0) with (2 * Zpos p) in L.
  split; [|exact G].
  replace (2 ^ Zpos (Pos.size p)) with (2 * 2 ^ (Zpos (Pos.size p) - 1)) in L.
  - lia.
  - rewrite <- Z.pow_succ_r by lia. f_equal. lia.
Qed.

Lemma digits2_unique (p : positive) (n : Z) :
  2 ^ (n - 1) <= Zpos p < 2 ^ n -> Zpos (digits2_pos p) = n.
Proof.
  intros [L U]. pose proof (digits2_bounds p) as [L' U'].
  assert (0 < n).
  { destruct (Z.ltb_spec 0 n); [assumption|].
    replace (2 ^ n) with (if n =? 0 then 1 else 0) in U; [destruct (n =? 0); lia|].
    destruct (Z.eqb_spec n 0); [subst; reflexivity|].
    symmetry. apply Z.pow_neg_r. lia. }
  destruct (Z.lt_trichotomy (Zpos (digits2_pos p)) n) as [Hlt|[Heq|Hgt]];
    [|exact Heq|].
  - assert (2 ^ Zpos (digits2_pos p) <= 2 ^ (n - 1))
      by (apply Z.pow_le_mono_r; lia). lia.
  - assert (2 ^ n <= 2 ^ (Zpos (digits2_pos p) - 1))
      by (apply Z.pow_le_mono_r; lia). lia.
Qed.

Lemma iter_pos_nat {A} (f : A -> A) (p : positive) (x : A) :
  SpecFloat.iter_pos f p x = Nat.iter (Pos.to_nat p) f x.
Proof.
  revert x. induction p as [p IH|p IH|]; intros x.
  - change (SpecFloat.iter_pos f p~1 x)
      with (SpecFloat.iter_pos f p (SpecFloat.iter_pos f p (f x))).
    rewrite !IH, Pos2Nat.inj_xI.
    replace (S (2 * Pos.to_nat p)) with (Pos.to_nat p + (Pos.to_nat p + 1))%nat
      by lia.
    rewrite !Nat.iter_add. reflexivity.
  - change (SpecFloat.iter_pos f p~0 x)
      with (SpecFloat.iter_pos f p (SpecFloat.iter_pos f p x)).
    rewrite !IH, Pos2Nat.inj_xO.
    replace (2 * Pos.to_nat p)%nat with (Pos.to_nat p + Pos.to_nat p)%nat
      by lia.
    now rewrite Nat.iter_add.
  - reflexivity.
Qed.

Lemma shr_1_spec (m : Z) (r s : bool) :
  0 <= m ->
  shr_1 (Build_shr_record m r s)
  = Build_shr_record (m / 2) (Z.odd m) (r || s).
Proof.
  intros H. rewrite <- Z.div2_div.
  destruct m as [|[p|p|]|p]; try reflexivity. lia.
Qed.

Lemma shifted_step (a : Z) (k : nat) :
  0 <= a -> shr_1 (shifted a k) = shifted a (S k).
Proof.
  intros Ha. destruct k as [|k].
  - unfold shifted. rewrite shr_1_spec by exact Ha.
    change (Z.of_nat 1) with 1. change (Z.of_nat 0) with 0.
    rewrite Z.pow_1_r, Z.bit0_odd, Z.pow_0_r, Z.mod_1_r. reflexivity.
  - unfold shifted.
    assert (P : 0 < 2 ^ Z.of_nat k) by (apply Z.pow_pos_nonneg; lia).
    assert (P' : 0 < 2 ^ Z.of_nat (S k)) by (apply Z.pow_pos_nonneg; lia).
    rewrite shr_1_spec by (apply Z.div_pos; lia).
    f_equal.
    + rewrite Z.div_div by lia. f_equal.
      rewrite (Nat2Z.inj_succ (S k)), Z.pow_succ_r by lia. lia.
    + rewrite Z.testbit_odd, Z.shiftr_div_pow2 by lia. reflexivity.
    + rewrite (Nat2Z.inj_succ k), Z.pow_succ_r by lia.
      rewrite (Z.mul_comm 2), Z.rem_mul_r by lia.
      rewrite Z.testbit_odd, Z.shiftr_div_pow2 by lia.
      rewrite (Zmod_odd (a / 2 ^ Z.of_nat k)).
      pose proof (Z.mod_pos_bound a (2 ^ Z.of_nat k) P).
      destruct (Z.odd (a / 2 ^ Z.of_nat k)); simpl.
      * symmetry. apply negb_true_iff, Z.eqb_neq. lia.
      * now rewrite Z.mul_0_r, Z.add_0_r.
Qed.

Lemma iter_shr_1 (a : Z) (k : nat) :
  0 <= a ->
  Nat.iter k shr_1 (Build_shr_record a false false) = shifted a k.
Proof.
  intros Ha. induction k as [|k IH]; [reflexivity|].
  rewrite Nat.iter_succ, IH. now apply shifted_step.
Qed.

Lemma shr_exact (a e n : Z) :
  0 <= a -> 0 <= n ->
  shr (Build_shr_record a false false) e n = (shifted a (Z.to_nat n), e + n).
Proof.
  intros Ha Hn. unfold shr. destruct n as [|p|p]; try lia.
  - simpl. f_equal. lia.
  - rewrite iter_pos_nat, iter_shr_1 by exact Ha. reflexivity.
Qed.

Lemma fexp64 (x : Z) : -1021 <= x -> fexp 53 1024 x = x - 53.
Proof. intros H. unfold fexp, emin. lia. Qed.

Lemma binary_round_aux_unfold (mx ex : Z) (lx : location) :
  binary_round_aux 53 1024 false mx ex lx
  = let mrs_e := shr_fexp 53 1024 mx ex lx in
    finish (shr_fexp 53 1024
              (round_nearest_even (shr_m (fst mrs_e))
                 (loc_of_shr_record (fst mrs_e)))
              (snd mrs_e) loc_Exact).
Proof.
  unfold binary_round_aux, finish.
  destruct (shr_fexp 53 1024 mx ex lx) as [mrs' e']. simpl.
  now destruct (shr_fexp 53 1024 _ e' loc_Exact) as [mrs'' e''].
Qed.

Lemma finish_normal (m1 e : Z) :
  2 ^ 52 <= m1 <= 2 ^ 53 -> -1074 <= e <= 970 ->
  finish (shr_fexp 53 1024 m1 e loc_Exact)
  = if m1 <? 2 ^ 53 then S754_finite false (Z.to_pos m1) e
    else S754_finite false (2 ^ 52) (e + 1).
Proof.
  intros Hm He. destruct (Z.ltb_spec m1 (2 ^ 53)) as [Hlt|Hge].
  - destruct m1 as [|p|p]; try lia.
    unfold shr_fexp. simpl Zdigits2.
    rewrite (digits2_unique p 53) by (change (53 - 1) with 52; lia).
    rewrite fexp64 by lia.
    replace (53 + e - 53 - e) with 0 by lia. simpl.
    destruct (Z.leb_spec e (1024 - 53)); [reflexivity | lia].
  - assert (m1 = 2 ^ 53) by lia. subst m1.
    unfold shr_fexp. change (Zdigits2 (2 ^ 53)) with 54.
    rewrite fexp64 by lia.
    replace (54 + e - 53 - e) with 1 by lia. simpl.
    destruct (Z.leb_spec (e + 1) (1024 - 53)); [reflexivity | lia].
Qed.

Lemma shifted_m (a : Z) (k : nat) : shr_m (shifted a k) = a / 2 ^ Z.of_nat k.
Proof. destruct k; simpl; [now rewrite Z.div_1_r | reflexivity]. Qed.

Lemma rne_bounds (q : Z) (l : location) :
  q <= round_nearest_even q l <= q + 1.
Proof.
  destruct l as [|[| |]]; simpl; try lia. destruct (Z.even q); lia.
Qed.

Lemma rnd_bounds (a : Z) (k : nat) :
  a / 2 ^ Z.of_nat k <= rnd a k <= a / 2 ^ Z.of_nat k + 1.
Proof. unfold rnd. rewrite shifted_m. apply rne_bounds. Qed.

Lemma rnd_mono (a d : Z) (k : nat) : 0 <= a <= d -> rnd a k <= rnd d k.
Proof.
  intros H. destruct k as [|k]; [unfold rnd; simpl; lia|].
  assert (P : 0 < 2 ^ Z.of_nat k) by (apply Z.pow_pos_nonneg; lia).
  assert (E2 : 2 ^ Z.of_nat (S k) = 2 ^ Z.of_nat k * 2)
    by (rewrite Nat2Z.inj_succ, Z.pow_succ_r by lia; lia).
  assert (Q : a / 2 ^ Z.of_nat (S k) <= d / 2 ^ Z.of_nat (S k))
    by (apply Z.div_le_mono; lia).
  pose proof (rnd_bounds a (S k)) as Ba. pose proof (rnd_bounds d (S k)) as Bd.
  destruct (Z.eq_dec (a / 2 ^ Z.of_nat (S k)) (d / 2 ^ Z.of_nat (S k)))
    as [Eq|Ne]; [|lia].
  (* same quotient: compare the round and sticky bits *)
  assert (Da : a = 2 ^ Z.of_nat (S k) * (a / 2 ^ Z.of_nat (S k))
                   + (a mod 2 ^ Z.of_nat k
                      + 2 ^ Z.of_nat k * ((a / 2 ^ Z.of_nat k) mod 2))).
  { rewrite <- Z.rem_mul_r, <- E2 by lia. apply Z.div_mod. lia. }
  assert (Dd : d = 2 ^ Z.of_nat (S k) * (d / 2 ^ Z.of_nat (S k))
                   + (d mod 2 ^ Z.of_nat k
                      + 2 ^ Z.of_nat k * ((d / 2 ^ Z.of_nat k) mod 2))).
  { rewrite <- Z.rem_mul_r, <- E2 by lia. apply Z.div_mod. lia. }
  pose proof (Z.mod_pos_bound a (2 ^ Z.of_nat k) P) as La.
  pose proof (Z.mod_pos_bound d (2 ^ Z.of_nat k) P) as Ld.
  unfold rnd, shifted. simpl shr_m. simpl loc_of_shr_record.
  rewrite !Z.testbit_odd, !Z.shiftr_div_pow2 by lia.
  rewrite (Zmod_odd (a / 2 ^ Z.of_nat k)) in Da.
  rewrite (Zmod_odd (d / 2 ^ Z.of_nat k)) in Dd.
  rewrite <- Eq in *.
  set (q := a / 2 ^ Z.of_nat (S k)) in *.
  destruct (Z.odd (a / 2 ^ Z.of_nat k)), (Z.odd (d / 2 ^ Z.of_nat k));
    destruct (Z.eqb_spec (a mod 2 ^ Z.of_nat k) 0) as [Za|Za];
    destruct (Z.eqb_spec (d mod 2 ^ Z.of_nat k) 0) as [Zd|Zd];
    simpl; try destruct (Z.even q); try lia.
Qed.

Lemma pow2_split (x y : Z) : 0 <= x -> 0 <= y -> 2 ^ (x + y) = 2 ^ x * 2 ^ y.
Proof. intros. now apply Z.pow_add_r. Qed.

Lemma quotient_bounds (m s : Z) :
  0 <= s -> 2 ^ (52 + s) <= m < 2 ^ (53 + s) -> 2 ^ 52 <= m / 2 ^ s < 2 ^ 53.
Proof.
  intros Hs [L U].
  assert (P : 0 < 2 ^ s) by (apply Z.pow_pos_nonneg; lia).
  rewrite pow2_split in L, U by lia. split.
  - apply Z.div_le_lower_bound; lia.
  - apply Z.div_lt_upper_bound; lia.
Qed.

Lemma rnd_normal (m : positive) (s : Z) :
  Zpos (digits2_pos m) = 53 + s -> 0 <= s ->
  2 ^ 52 <= rnd (Zpos m) (Z.to_nat s) <= 2 ^ 53.
Proof.
  intros Hd Hs. pose proof (digits2_bounds m) as B. rewrite Hd in B.
  replace (53 + s - 1) with (52 + s) in B by lia.
  pose proof (quotient_bounds _ _ Hs B) as Q.
  pose proof (rnd_bounds (Zpos m) (Z.to_nat s)) as R.
  rewrite Z2Nat.id in R by lia. lia.
Qed.

Lemma binary_round_aux_exact (m : positive) (e s : Z) :
  Zpos (digits2_pos m) = 53 + s -> 0 <= s -> -1074 <= e + s <= 970 ->
  binary_round_aux 53 1024 false (Zpos m) e loc_Exact
  = if rnd (Zpos m) (Z.to_nat s) <? 2 ^ 53
    then S754_finite false (Z.to_pos (rnd (Zpos m) (Z.to_nat s))) (e + s)
    else S754_finite false (2 ^ 52) (e + s + 1).
Proof.
  intros Hd Hs He. rewrite binary_round_aux_unfold.
  assert (E : shr_fexp 53 1024 (Zpos m) e loc_Exact
              = (shifted (Zpos m) (Z.to_nat s), e + s)).
  { unfold shr_fexp. simpl Zdigits2. rewrite Hd, fexp64 by lia.
    replace (53 + s + e - 53 - e) with s by lia.
    simpl shr_record_of_loc. apply shr_exact; lia. }
  rewrite E. simpl fst. simpl snd. cbv zeta.
  fold (rnd (Zpos m) (Z.to_nat s)).
  apply finish_normal; [now apply rnd_normal | lia].
Qed.

Lemma iter_xO (a d : positive) : Zpos (Pos.iter xO a d) = Zpos a * 2 ^ Zpos d.
Proof.
  induction d as [|d IH] using Pos.peano_ind.
  - simpl. lia.
  - rewrite Pos.iter_succ, Pos2Z.inj_succ, Z.pow_succ_r by lia.
    rewrite Pos2Z.inj_xO, IH. lia.
Qed.

Lemma int_digits_bounds (a : Z) :
  0 < a -> 0 < int_digits a /\ 2 ^ (int_digits a - 1) <= a < 2 ^ int_digits a.
Proof.
  intros H. destruct a as [|p|p]; try lia. simpl.
  split; [lia | apply digits2_bounds].
Qed.

Lemma int_digits_63 (a : Z) : 0 < a < 2 ^ 63 -> 1 <= int_digits a <= 63.
Proof.
  intros H. destruct (int_digits_bounds a) as [P [L _]]; [lia|].
  split; [lia|].
  destruct (Z.leb_spec (int_digits a) 63) as [|G]; [assumption|].
  assert (2 ^ 63 <= 2 ^ (int_digits a - 1)) by (apply Z.pow_le_mono_r; lia).
  lia.
Qed.

Lemma float_of_int64_spec (a : Z) :
  0 < a < 2 ^ 63 ->
  float_of_int64 a = S754_finite false (Z.to_pos (mant a)) (expo a).
Proof.
  intros H. pose proof (int_digits_63 a H) as N.
  destruct (int_digits_bounds a) as [_ B]; [lia|].
  destruct a as [|p|p]; try lia.
  unfold float_of_int64, binary_normalize, binary_round, mant, expo.
  unfold int_digits in *. simpl Zdigits2 in *.
  remember (Zpos (digits2_pos p)) as n eqn:En.
  rewrite fexp64 by lia. unfold shl_align.
  destruct (Z.leb_spec n 53) as [Hle|Hgt].
  - assert (D : forall mz, Zpos mz = Zpos p * 2 ^ (53 - n) ->
                binary_round_aux 53 1024 false (Zpos mz) (n - 53) loc_Exact
                = S754_finite false (Z.to_pos (Zpos p * 2 ^ (53 - n))) (n - 53)).
    { intros mz Emz.
      assert (P : 0 < 2 ^ (53 - n)) by (apply Z.pow_pos_nonneg; lia).
      assert (Bz : 2 ^ 52 <= Zpos mz < 2 ^ 53).
      { rewrite Emz. split.
        - replace 52 with ((n - 1) + (53 - n)) by lia.
          rewrite pow2_split by lia. nia.
        - replace 53 with (n + (53 - n)) at 2 by lia.
          rewrite pow2_split by lia. nia. }
      rewrite (binary_round_aux_exact mz (n - 53) 0);
        [|apply digits2_unique; change (53 + 0 - 1) with 52; exact Bz | lia
         | lia].
      unfold rnd. simpl.
      destruct (Z.ltb_spec (Zpos mz) (2 ^ 53)); [|lia].
      rewrite <- Emz. f_equal. lia. }
    destruct (n + 0 - 53 - 0) as [|d|d] eqn:Ed.
    + assert (E53 : n = 53) by lia. rewrite E53 in D |- *. apply D.
      simpl. lia.
    + lia.
    + replace (n + 0 - 53) with (n - 53) by lia.
      apply D. rewrite iter_xO. do 2 f_equal. lia.
  - destruct (n + 0 - 53 - 0) as [|d|d] eqn:Ed; try lia.
    rewrite (binary_round_aux_exact p 0 (n - 53)) by lia.
    destruct (Z.ltb_spec (rnd (Zpos p) (Z.to_nat (n - 53))) (2 ^ 53));
      f_equal; lia.
Qed.

Lemma rnd_normal_int (a : Z) :
  0 < a -> 53 <= int_digits a ->
  2 ^ 52 <= rnd a (Z.to_nat (int_digits a - 53)) <= 2 ^ 53.
Proof.
  intros Ha Hn. destruct a as [|p|p]; try lia.
  apply rnd_normal; unfold int_digits in *; simpl Zdigits2 in *; lia.
Qed.

Lemma mant_expo_bounds (a : Z) :
  0 < a < 2 ^ 63 -> 2 ^ 52 <= mant a < 2 ^ 53 /\ -52 <= expo a <= 11.
Proof.
  intros H. pose proof (int_digits_63 a H) as N.
  destruct (int_digits_bounds a) as [_ B]; [lia|].
  unfold mant, expo. set (n := int_digits a) in *.
  destruct (Z.leb_spec n 53) as [Hle|Hgt].
  - assert (P : 0 < 2 ^ (53 - n)) by (apply Z.pow_pos_nonneg; lia).
    split; [|lia]. split.
    + replace 52 with ((n - 1) + (53 - n)) by lia.
      rewrite pow2_split by lia. nia.
    + replace 53 with (n + (53 - n)) at 2 by lia.
      rewrite pow2_split by lia. nia.
  - pose proof (rnd_normal_int a) as R. fold n in R.
    destruct (Z.ltb_spec (rnd a (Z.to_nat (n - 53))) (2 ^ 53)); lia.
Qed.

Lemma int_digits_mono (a d : Z) :
  0 < a <= d -> int_digits a <= int_digits d.
Proof.
  intros H.
  destruct (int_digits_bounds a) as [Pa [La _]]; [lia|].
  destruct (int_digits_bounds d) as [Pd [_ Ud]]; [lia|].
  destruct (Z.leb_spec (int_digits a) (int_digits d)) as [|G]; [assumption|].
  assert (2 ^ int_digits d <= 2 ^ (int_digits a - 1))
    by (apply Z.pow_le_mono_r; lia).
  lia.
Qed.

(** The conversion is monotone: exponents first, then mantissas. *)
Lemma float_of_int64_mono (a d : Z) :
  0 < a <= d -> d < 2 ^ 63 ->
  expo a < expo d \/ (expo a = expo d /\ mant a <= mant d).
Proof.
  intros H Hd.
  pose proof (int_digits_mono a d H) as Hn.
  pose proof (mant_expo_bounds a ltac:(lia)) as [Ma _].
  pose proof (mant_expo_bounds d ltac:(lia)) as [Md _].
  pose proof (int_digits_63 a ltac:(lia)) as Na.
  pose proof (int_digits_63 d ltac:(lia)) as Nd.
  unfold mant, expo in *.
  set (na := int_digits a) in *. set (nd := int_digits d) in *.
  destruct (Z.eq_dec na nd) as [E|NE].
  - rewrite <- E in *. clear E.
    destruct (Z.leb_spec na 53) as [Hle|Hgt].
    + right. split; [reflexivity|].
      assert (P : 0 < 2 ^ (53 - na)) by (apply Z.pow_pos_nonneg; lia). nia.
    + pose proof (rnd_mono a d (Z.to_nat (na - 53)) ltac:(lia)) as R.
      destruct (Z.ltb_spec (rnd a (Z.to_nat (na - 53))) (2 ^ 53));
        destruct (Z.ltb_spec (rnd d (Z.to_nat (na - 53))) (2 ^ 53)); lia.
  - destruct (Z.leb_spec na 53), (Z.leb_spec nd 53);
      try destruct (Z.ltb_spec (rnd a (Z.to_nat (na - 53))) (2 ^ 53));
      try destruct (Z.ltb_spec (rnd d (Z.to_nat (nd - 53))) (2 ^ 53)); lia.
Qed.

Lemma shr_record_roundtrip (q : Z) (l : location) :
  shr_m (shr_record_of_loc q l) = q
  /\ loc_of_shr_record (shr_record_of_loc q l) = l.
Proof. destruct l as [|[| |]]; split; reflexivity. Qed.

Lemma binary_round_aux_weak (q e : Z) (l : location) :
  2 ^ 52 <= q < 2 ^ 54 -> -1074 <= e <= 900 ->
  exists M E,
    binary_round_aux 53 1024 false q e l = S754_finite false M E
    /\ E <= e + (if q <? 2 ^ 53 then 1 else 2)
    /\ (E = e + (if q <? 2 ^ 53 then 1 else 2) -> M = (2 ^ 52)%positive).
Proof.
  intros Hq He. rewrite binary_round_aux_unfold.
  destruct q as [|p|p]; try lia.
  destruct (Z.ltb_spec (Zpos p) (2 ^ 53)) as [Hlt|Hge].
  - assert (E : shr_fexp 53 1024 (Zpos p) e l
                = (shr_record_of_loc (Zpos p) l, e)).
    { unfold shr_fexp. simpl Zdigits2.
      rewrite (digits2_unique p 53) by (change (53 - 1) with 52; lia).
      rewrite fexp64 by lia. now replace (53 + e - 53 - e) with 0 by lia. }
    rewrite E. cbv zeta. simpl fst. simpl snd.
    destruct (shr_record_roundtrip (Zpos p) l) as [-> ->].
    pose proof (rne_bounds (Zpos p) l) as R.
    rewrite finish_normal by lia.
    destruct (Z.ltb_spec (round_nearest_even (Zpos p) l) (2 ^ 53)).
    + eexists _, _. split; [reflexivity|]. lia.
    + eexists _, _. split; [reflexivity|]. split; [lia | reflexivity].
  - assert (E : shr_fexp 53 1024 (Zpos p) e l
                = (shr_1 (shr_record_of_loc (Zpos p) l), e + 1)).
    { unfold shr_fexp. simpl Zdigits2.
      rewrite (digits2_unique p 54) by (change (54 - 1) with 53; lia).
      rewrite fexp64 by lia. now replace (54 + e - 53 - e) with 1 by lia. }
    rewrite E. cbv zeta. simpl fst. simpl snd.
    assert (S1 : shr_m (shr_1 (shr_record_of_loc (Zpos p) l)) = Zpos p / 2).
    { destruct l as [|[| |]]; simpl shr_record_of_loc;
        rewrite shr_1_spec by lia; reflexivity. }
    rewrite S1.
    pose proof (rne_bounds (Zpos p / 2)
                  (loc_of_shr_record (shr_1 (shr_record_of_loc (Zpos p) l))))
      as R.
    assert (Q : 2 ^ 52 <= Zpos p / 2 < 2 ^ 53).
    { split; [apply Z.div_le_lower_bound | apply Z.div_lt_upper_bound]; lia. }
    rewrite finish_normal by lia.
    destruct (Z.ltb_spec
                (round_nearest_even (Zpos p / 2)
                   (loc_of_shr_record (shr_1 (shr_record_of_loc (Zpos p) l))))
                (2 ^ 53)).
    + eexists _, _. split; [reflexivity|]. lia.
    + eexists _, _. split; [reflexivity|]. split; [lia | intros _; reflexivity].
Qed.

Lemma new_location_zero (nb : Z) : new_location nb 0 = loc_Exact.
Proof.
  unfold new_location, new_location_even, new_location_odd.
  now destruct (Z.even nb).
Qed.

Lemma div_core (M1 M2 : positive) (E1 E2 : Z) :
  2 ^ 52 <= Zpos M1 < 2 ^ 53 -> 2 ^ 52 <= Zpos M2 < 2 ^ 53 ->
  -100 <= E1 - E2 <= 100 ->
  SFdiv_core_binary 53 1024 (Zpos M1) E1 (Zpos M2) E2
  = (Zpos M1 * 2 ^ 53 / Zpos M2, E1 - E2 - 53,
     new_location (Zpos M2) ((Zpos M1 * 2 ^ 53) mod Zpos M2)).
Proof.
  intros H1 H2 HE. unfold SFdiv_core_binary. simpl Zdigits2.
  rewrite (digits2_unique M1 53), (digits2_unique M2 53)
    by (change (53 - 1) with 52; lia).
  rewrite fexp64 by lia.
  replace (Z.min (53 + E1 - (53 + E2) - 53) (E1 - E2)) with (E1 - E2 - 53)
    by lia.
  replace (E1 - E2 - (E1 - E2 - 53)) with 53 by lia.
  rewrite Z.shiftl_mul_pow2 by lia.
  unfold Z.div, Z.modulo.
  now destruct (Z.div_eucl (Zpos M1 * 2 ^ 53) (Zpos M2)) as [q r].
Qed.

(** The quotient of two normal floats, the first not above the second, is
    at most one. *)
Lemma div_le_one (M1 M2 : positive) (E1 E2 : Z) :
  2 ^ 52 <= Zpos M1 < 2 ^ 53 -> 2 ^ 52 <= Zpos M2 < 2 ^ 53 ->
  -52 <= E1 <= 11 -> -52 <= E2 <= 11 ->
  E1 < E2 \/ (E1 = E2 /\ Zpos M1 <= Zpos M2) ->
  exists M E,
    float64_div (S754_finite false M1 E1) (S754_finite false M2 E2)
    = S754_finite false M E
    /\ (E < -52 \/ (E = -52 /\ M = (2 ^ 52)%positive)).
Proof.
  intros H1 H2 HE1 HE2 Hle.
  unfold float64_div, SFdiv. rewrite div_core by lia. simpl xorb.
  set (q := Zpos M1 * 2 ^ 53 / Zpos M2).
  assert (Q : 2 ^ 52 <= q < 2 ^ 54).
  { unfold q. split.
    - apply Z.div_le_lower_bound; [lia|]. nia.
    - apply Z.div_lt_upper_bound; [lia|]. nia. }
  destruct (Z.eq_dec (Zpos M1) (Zpos M2)) as [EM|NM].
  - (* equal mantissas *)
    assert (q = 2 ^ 53).
    { unfold q. rewrite EM, Z.mul_comm. apply Z.div_mul. lia. }
    assert (R : (Zpos M1 * 2 ^ 53) mod Zpos M2 = 0).
    { rewrite EM, Z.mul_comm. apply Z.mod_mul. lia. }
    rewrite R, new_location_zero. rewrite H.
    destruct Hle as [Hlt|[-> _]].
    + destruct (binary_round_aux_weak (2 ^ 53) (E1 - E2 - 53) loc_Exact)
        as (M & E & -> & B1 & B2); [lia | lia|].
      exists M, E. split; [reflexivity|].
      change (2 ^ 53 <? 2 ^ 53) with false in B1, B2. cbv iota in B1, B2.
      destruct (Z.eq_dec E (-52)) as [->|]; [right | left; lia].
      split; [reflexivity|]. apply B2. lia.
    + replace (E2 - E2 - 53) with (-53) by lia.
      exists (2 ^ 52)%positive, (-52). split; [reflexivity | right; auto].
  - destruct (binary_round_aux_weak q (E1 - E2 - 53)
                (new_location (Zpos M2) ((Zpos M1 * 2 ^ 53) mod Zpos M2)))
      as (M & E & -> & B1 & B2); [lia | lia|].
    exists M, E. split; [reflexivity|].
    destruct Hle as [Hlt|[-> Hm]].
    + destruct (q <? 2 ^ 53);
        (destruct (Z.eq_dec E (-52)) as [->|]; [right | left; lia]);
        (split; [reflexivity|]; apply B2; lia).
    + assert (q < 2 ^ 53).
      { unfold q. apply Z.div_lt_upper_bound; [lia|]. nia. }
      destruct (Z.ltb_spec q (2 ^ 53)); [|lia].
      destruct (Z.eq_dec E (-52)) as [->|]; [right | left; lia].
      split; [reflexivity|]. apply B2. lia.
Qed.

Lemma finite_in_unit (M : positive) (E : Z) :
  E < -52 \/ (E = -52 /\ M = (2 ^ 52)%positive) ->
  float64_leb float_zero (S754_finite false M E) = true
  /\ float64_leb (S754_finite false M E) float_one = true.
Proof.
  intros H. split; [reflexivity|].
  unfold float64_leb, SFleb, float_one, SFcompare.
  destruct H as [H|[-> ->]].
  - now rewrite (proj2 (Z.compare_lt_iff E (-52)) H).
  - reflexivity.
Qed.

(** The ratio of two int64 values [0 <= a <= d], [0 < d], lies in [0, 1]. *)
Lemma int64_ratio_in_unit (a d : Z) :
  0 <= a <= d -> 0 < d < 2 ^ 63 ->
  float64_leb float_zero (float64_div (float_of_int64 a) (float_of_int64 d))
  = true
  /\ float64_leb (float64_div (float_of_int64 a) (float_of_int64 d)) float_one
     = true.
Proof.
  intros Ha Hd. rewrite (float_of_int64_spec d) by lia.
  destruct (Z.eq_dec a 0) as [->|Hnz].
  - split; reflexivity.
  - rewrite (float_of_int64_spec a) by lia.
    pose proof (mant_expo_bounds a ltac:(lia)) as [Ma Ea].
    pose proof (mant_expo_bounds d ltac:(lia)) as [Md Ed].
    pose proof (float_of_int64_mono a d ltac:(lia) ltac:(lia)) as Mo.
    destruct (div_le_one (Z.to_pos (mant a)) (Z.to_pos (mant d))
                (expo a) (expo d)) as (M & E & -> & B);
      rewrite ?Z2Pos.id by lia; auto.
    now apply finite_in_unit.
Qed.

(** ** Claims on [plot_referendum_map] *)

Lemma plot_referendum_map_In (gdf : list GeoRow) (res : list ResultRow)
    (row : MapRow) :
  In row (plot_referendum_map gdf res) ->
  In (map_res row) res
  /\ geo_code_reg (map_geo row) = Some (res_code_reg (map_res row))
  /\ ratio row = compute_ratio (res_Choice_A (map_res row))
                   (res_Choice_B (map_res row)).
Proof.
  unfold plot_referendum_map, with_ratio, merge_geo, merge_inner.
  intros H. apply in_map_iff in H as ([g r] & <- & H). simpl.
  apply in_flat_map in H as (g' & _ & H).
  apply in_map_iff in H as (r' & E & H). injection E as -> ->.
  apply matches_In in H as [H K]. auto.
Qed.

(** C6.  A region whose "Choice A" and "Choice B" are both zero gets the
    ratio NaN: not 0.0, not 1.0, and equal to no float; and the call
    returns its table, it does not raise. *)
Theorem ratio_of_zero_choices_is_nan
    (gdf : list GeoRow) (res : list ResultRow) (row : MapRow) :
  row ∈ plot_referendum_map gdf res ->
  res_Choice_A (map_res row) = 0 ->
  res_Choice_B (map_res row) = 0 ->
  ratio row = S754_nan
  /\ ratio row <> float_zero /\ ratio row <> float_one
  /\ (forall x, SFeqb (ratio row) x = false)
  /\ (forall (st : Store) (p : ref),
        st !! p = Some (FResult res) ->
        exists r st',
          call_plot_referendum_map gdf p st = Some (r, st')
          /\ st' !! r = Some (FMap (plot_referendum_map gdf res))).
Proof.
  intros Hrow HA HB.
  apply list_elem_of_In, plot_referendum_map_In in Hrow as (_ & _ & E).
  rewrite HA, HB in E. change (compute_ratio 0 0) with S754_nan in E.
  rewrite E. repeat split; try discriminate.
  intros st p Hp. eexists _, _.
  split; [exact (call_plot_referendum_map_run _ gdf _ _ Hp)|].
  rewrite lookup_app_r by lia.
  now replace (S (length st) - length st)%nat with 1%nat by lia.
Qed.

Lemma ratio_of_zero_choices_is_nan_witness :
  plot_referendum_map [mkGeoRow (Some "84") "POLYGON"]
    [mkResultRow "84" (Some "Region A") 10 10 0 0 0]
  = [mkMapRow (mkGeoRow (Some "84") "POLYGON")
       (mkResultRow "84" (Some "Region A") 10 10 0 0 0) S754_nan]
  /\ S754_nan <> float_zero /\ S754_nan <> float_one.
Proof.
  split; [reflexivity|].
  refine (let H := ratio_of_zero_choices_is_nan
                     [mkGeoRow (Some "84") "POLYGON"]
                     [mkResultRow "84" (Some "Region A") 10 10 0 0 0]
                     (mkMapRow (mkGeoRow (Some "84") "POLYGON")
                        (mkResultRow "84" (Some "Region A") 10 10 0 0 0)
                        S754_nan) _ eq_refl eq_refl in
          conj (proj1 (proj2 H)) (proj1 (proj2 (proj2 H)))).
  apply list_elem_of_In. left. reflexivity.
Defined.

(** The sum "Choice A" + "Choice B" is an int64 addition.  For two counts
    whose sum reaches [2^63] it wraps around to a negative number and the
    ratio is negative (here -0.5): the claim C9 fails there. *)
Lemma ratio_is_negative_when_the_sum_wraps :
  ~ (forall (gdf : list GeoRow) (res : list ResultRow) (row : MapRow),
       (forall r, r ∈ res ->
          int64_range (res_Choice_A r) /\ int64_range (res_Choice_B r)
          /\ 0 <= res_Choice_A r /\ 0 <= res_Choice_B r) ->
       row ∈ plot_referendum_map gdf res ->
       add64 (res_Choice_A (map_res row)) (res_Choice_B (map_res row)) <> 0 ->
       float64_leb float_zero (ratio row) = true
       /\ float64_leb (ratio row) float_one = true).
Proof.
  intros H.
  pose (r := mkResultRow "84" (Some "Region A") 0 0 0 (2 ^ 62) (2 ^ 62)).
  pose (g := mkGeoRow (Some "84") "POLYGON").
  destruct (H [g] [r] (mkMapRow g r (S754_finite true (2 ^ 52) (-53))))
    as [H0 _].
  - intros r' Hr'. apply list_elem_of_In in Hr'. destruct Hr' as [<-|[]].
    unfold int64_range. simpl. lia.
  - apply list_elem_of_In. left. reflexivity.
  - vm_compute. discriminate.
  - vm_compute in H0. discriminate H0.
Qed.

(** C9, amended.  When "Choice A" and "Choice B" of a row are non-negative,
    their sum is below [2^63] (the int64 addition does not wrap around) and
    is not zero, the ratio of the row is a float64 between 0.0 and 1.0. *)
Theorem ratio_is_between_zero_and_one
    (gdf : list GeoRow) (res : list ResultRow) (row : MapRow) :
  row ∈ plot_referendum_map gdf res ->
  0 <= res_Choice_A (map_res row) ->
  0 <= res_Choice_B (map_res row) ->
  res_Choice_A (map_res row) + res_Choice_B (map_res row) < 2 ^ 63 ->
  res_Choice_A (map_res row) + res_Choice_B (map_res row) <> 0 ->
  float64_leb float_zero (ratio row) = true
  /\ float64_leb (ratio row) float_one = true.
Proof.
  intros Hrow HA HB Hfit Hnz.
  apply list_elem_of_In, plot_referendum_map_In in Hrow as (_ & _ & ->).
  unfold compute_ratio, add64.
  rewrite wrap64_small by (unfold int64_range; lia).
  apply int64_ratio_in_unit; lia.
Qed.

Lemma ratio_is_between_zero_and_one_witness :
  float64_leb float_zero (S754_finite false 5298352502788819 (-53)) = true
  /\ float64_leb (S754_finite false 5298352502788819 (-53)) float_one = true.
Proof.
  refine (ratio_is_between_zero_and_one
            [mkGeoRow (Some "84") "POLYGON"]
            [mkResultRow "84" (Some "Region A") 150 50 15 50 35]
            (mkMapRow (mkGeoRow (Some "84") "POLYGON")
               (mkResultRow "84" (Some "Region A") 150 50 15 50 35)
               (S754_finite false 5298352502788819 (-53)))
            _ _ _ _ _).
  - apply list_elem_of_In. left. reflexivity.
  - simpl. lia.
  - simpl. lia.
  - simpl. lia.
  - simpl. lia.
Defined.

(** * Further properties of the stages *)

(** ** Joins on unique keys *)

Section MergeUnique.
Context {L R O : Type}.
Variable keyL : L -> option string.
Variable keyR : R -> option string.
Variable combine : L -> R -> O.
Variable missing : L -> O.

Lemma matches_not_In (l : L) (rs : list R) :
  keyL l ∉ map keyR rs -> matches keyL keyR l rs = [].
Proof.
  intros H. apply matches_none. intros r Hr E. apply H.
  rewrite <- E. apply list_elem_of_In, in_map, Hr.
Qed.

Lemma matches_unique (l : L) (rs : list R) :
  NoDup (map keyR rs) -> (length (matches keyL keyR l rs) <= 1)%nat.
Proof.
  induction rs as [|r rs IH]; simpl; intros Hnd; [lia|].
  apply NoDup_cons in Hnd as [Hr Hnd].
  destruct (key_eqb (keyL l) (keyR r)) eqn:E.
  - apply key_eqb_eq in E. fold (matches keyL keyR l rs).
    rewrite matches_not_In by (now rewrite E). simpl. lia.
  - now apply IH.
Qed.

Lemma matches_unique_In (l : L) (rs : list R) (r : R) :
  NoDup (map keyR rs) -> In r rs -> keyL l = keyR r ->
  matches keyL keyR l rs = [r].
Proof.
  intros Hnd Hr E.
  pose proof (matches_unique l rs Hnd) as Hlen.
  assert (I : In r (matches keyL keyR l rs)) by now apply matches_In.
  destruct (matches keyL keyR l rs) as [|x [|y ms]]; simpl in *;
    [destruct I | | lia].
  destruct I as [->|[]]. reflexivity.
Qed.

Lemma merge_inner_app (l1 l2 : list L) (rs : list R) :
  merge_inner keyL keyR combine (l1 ++ l2) rs
  = merge_inner keyL keyR combine l1 rs ++ merge_inner keyL keyR combine l2 rs.
Proof. unfold merge_inner. apply flat_map_app. Qed.

Lemma merge_inner_In (ls : list L) (rs : list R) (o : O) :
  In o (merge_inner keyL keyR combine ls rs) <->
  exists l r, In l ls /\ In r rs /\ keyL l = keyR r /\ o = combine l r.
Proof.
  unfold merge_inner. rewrite in_flat_map. split.
  - intros (l & Il & Io). apply in_map_iff in Io as (r & <- & Ir).
    apply matches_In in Ir as [Ir K]. eauto 6.
  - intros (l & r & Il & Ir & K & ->). exists l. split; [exact Il|].
    apply in_map. now apply matches_In.
Qed.

Lemma merge_left_unique (proj : O -> L) (ls : list L) (rs : list R) :
  (forall l r, proj (combine l r) = l) -> (forall l, proj (missing l) = l) ->
  NoDup (map keyR rs) ->
  map proj (merge_left keyL keyR combine missing ls rs) = ls.
Proof.
  intros Hc Hm Hnd. induction ls as [|l ls IH]; [reflexivity|].
  change (l :: ls) with ([l] ++ ls).
  rewrite merge_left_app, map_app, IH. f_equal.
  unfold merge_left. simpl. rewrite app_nil_r.
  pose proof (matches_unique l rs Hnd) as Hlen.
  destruct (matches keyL keyR l rs) as [|x [|y ms]]; simpl in *;
    [now rewrite Hm | now rewrite Hc | lia].
Qed.

Lemma merge_inner_unique_sublist (proj : O -> L) (ls : list L) (rs : list R) :
  (forall l r, proj (combine l r) = l) ->
  NoDup (map keyR rs) ->
  map proj (merge_inner keyL keyR combine ls rs) `sublist_of` ls.
Proof.
  intros Hc Hnd. induction ls as [|l ls IH]; [constructor|].
  change (l :: ls) with ([l] ++ ls).
  rewrite merge_inner_app, map_app.
  apply sublist_app; [|exact IH].
  unfold merge_inner. simpl. rewrite app_nil_r.
  pose proof (matches_unique l rs Hnd) as Hlen.
  destruct (matches keyL keyR l rs) as [|x [|y ms]]; simpl in *;
    [apply sublist_nil_l | rewrite Hc; reflexivity | lia].
Qed.
End MergeUnique.

(** ** [merge_regions_and_departments] *)

(** X1.  The rows of the merged reference table are exactly the pairs of a
    department and a region whose code is the department's region code, and
    each row takes its region code and name from that region and its
    department code and name from that department. *)
Theorem area_rows_pair_a_department_with_its_region
    (df_reg : list RegionRef) (df_dep : list DepartmentRef) (a : AreaRow) :
  a ∈ merge_regions_and_departments df_reg df_dep <->
  exists d r, d ∈ df_dep /\ r ∈ df_reg
              /\ dep_region_code d = reg_code r
              /\ code_reg a = dep_region_code d
              /\ a = mkAreaRow (reg_code r) (reg_name r)
                       (dep_code d) (dep_name d).
Proof.
  unfold merge_regions_and_departments.
  rewrite list_elem_of_In, merge_inner_In. split.
  - intros (d & r & Hd & Hr & K & ->). exists d, r.
    rewrite !list_elem_of_In. simpl. auto.
  - intros (d & r & Hd & Hr & K & _ & ->). exists d, r.
    rewrite <- !list_elem_of_In. auto.
Qed.

(** X2.  When the region codes of the region table are pairwise distinct
    and every department names a region of that table, the merged table has
    one row per department, in the order of the departments, with the
    department's own code, name and region code. *)
Theorem one_area_row_per_department
    (df_reg : list RegionRef) (df_dep : list DepartmentRef) :
  NoDup (map reg_code df_reg) ->
  (forall d, d ∈ df_dep -> dep_region_code d ∈ map reg_code df_reg) ->
  map (fun a => (code_reg a, code_dep a, name_dep a))
    (merge_regions_and_departments df_reg df_dep)
  = map (fun d => (dep_region_code d, dep_code d, dep_name d)) df_dep.
Proof.
  intros Hnd Hall. unfold merge_regions_and_departments.
  induction df_dep as [|d ds IH]; [reflexivity|].
  change (d :: ds) with ([d] ++ ds).
  rewrite merge_inner_app, !map_app, IH
    by (intros d' Hd'; apply Hall; now right).
  f_equal. unfold merge_inner. simpl. rewrite app_nil_r.
  assert (Hd : dep_region_code d ∈ map reg_code df_reg)
    by (apply Hall; now left).
  apply list_elem_of_In, in_map_iff in Hd as (r & K & Hr).
  rewrite (matches_unique_In dep_region_code reg_code d df_reg r Hnd Hr)
    by congruence.
  simpl. now rewrite K.
Qed.

Lemma one_area_row_per_department_witness :
  map (fun a => (code_reg a, code_dep a, name_dep a))
    (merge_regions_and_departments
       [mkRegionRef (Some "84") (Some "Auvergne-Rhone-Alpes");
        mkRegionRef (Some "11") (Some "Ile-de-France")]
       [mkDepartmentRef (Some "11") (Some "75") (Some "Paris");
        mkDepartmentRef (Some "84") (Some "07") (Some "Ardeche")])
  = [(Some "11", Some "75", Some "Paris");
     (Some "84", Some "07", Some "Ardeche")].
Proof.
  apply (one_area_row_per_department
           [mkRegionRef (Some "84") (Some "Auvergne-Rhone-Alpes");
            mkRegionRef (Some "11") (Some "Ile-de-France")]
           [mkDepartmentRef (Some "11") (Some "75") (Some "Paris");
            mkDepartmentRef (Some "84") (Some "07") (Some "Ardeche")]).
  - apply (bool_decide_unpack _). reflexivity.
  - intros d Hd. apply list_elem_of_In in Hd. simpl in Hd.
    destruct Hd as [<-|[<-|[]]]; apply (bool_decide_unpack _); reflexivity.
Defined.

(** X3.  A department whose region code is the code of no region is left
    out of the merged table, without an error; the other departments are
    not affected. *)
Theorem department_without_region_is_left_out
    (df_reg : list RegionRef) (d1 d2 : list DepartmentRef)
    (d : DepartmentRef) :
  (forall r, r ∈ df_reg -> reg_code r <> dep_region_code d) ->
  merge_regions_and_departments df_reg (d1 ++ d :: d2)
  = merge_regions_and_departments df_reg (d1 ++ d2).
Proof.
  intros H. unfold merge_regions_and_departments.
  change (d :: d2) with ([d] ++ d2).
  rewrite !merge_inner_app. do 2 f_equal.
  unfold merge_inner. simpl.
  rewrite matches_none; [reflexivity|].
  intros r Hr. apply H. now apply list_elem_of_In.
Qed.

Lemma department_without_region_is_left_out_witness :
  merge_regions_and_departments
    [mkRegionRef (Some "84") (Some "Auvergne-Rhone-Alpes")]
    ([mkDepartmentRef (Some "84") (Some "07") (Some "Ardeche")]
       ++ mkDepartmentRef (Some "99") (Some "XX") (Some "Nowhere") :: [])
  = merge_regions_and_departments
      [mkRegionRef (Some "84") (Some "Auvergne-Rhone-Alpes")]
      ([mkDepartmentRef (Some "84") (Some "07") (Some "Ardeche")] ++ []).
Proof.
  apply (department_without_region_is_left_out
           [mkRegionRef (Some "84") (Some "Auvergne-Rhone-Alpes")]
           [mkDepartmentRef (Some "84") (Some "07") (Some "Ardeche")] []
           (mkDepartmentRef (Some "99") (Some "XX") (Some "Nowhere"))).
  intros r Hr. apply list_elem_of_In in Hr. simpl in Hr.
  destruct Hr as [<-|[]]. discriminate.
Defined.

(** ** [merge_referendum_and_areas] *)

(** X4.  A ballot gives, at its place in the merged table, no row when its
    department code contains "Z", and otherwise one row per row of the
    normalised lookup table that has its department code, or one row when
    there is none. *)
Theorem ballot_rows_in_the_merged_table
    (r1 r2 : list BallotRow) (b : BallotRow) (areas : list AreaRow) :
  exists rows,
    merge_referendum_and_areas (r1 ++ b :: r2) areas
    = merge_referendum_and_areas r1 areas ++ rows
      ++ merge_referendum_and_areas r2 areas
    /\ map ballot rows
       = replicate
           (if str_contains_Z_na_false (Department_code b) then 0%nat
            else Nat.max 1 (length (matches Department_code code_dep b
                                      (normalize_areas areas))))
           b.
Proof.
  exists (merge_referendum_and_areas [b] areas). split.
  - change (b :: r2) with ([b] ++ r2).
    now rewrite !merge_referendum_and_areas_app.
  - unfold merge_referendum_and_areas, drop_Z_ballots. simpl.
    destruct (str_contains_Z_na_false (Department_code b)); [reflexivity|].
    simpl. unfold merge_left. simpl. rewrite app_nil_r.
    destruct (matches Department_code code_dep b (normalize_areas areas))
      as [|a ms]; [reflexivity|].
    simpl. f_equal.
    induction ms as [|a' ms IH]; simpl; [reflexivity | now rewrite IH].
Qed.

(** X5.  When the normalised codes of the lookup table are pairwise
    distinct, the ballot columns of the merged table are the referendum
    table without its "Z" rows, row for row: the join neither loses nor
    repeats a ballot. *)
Theorem merged_ballots_are_the_filtered_referendum
    (referendum : list BallotRow) (areas : list AreaRow) :
  NoDup (map code_dep (normalize_areas areas)) ->
  map ballot (merge_referendum_and_areas referendum areas)
  = drop_Z_ballots referendum.
Proof.
  intros Hnd. unfold merge_referendum_and_areas.
  now apply merge_left_unique.
Qed.

Lemma merged_ballots_are_the_filtered_referendum_witness :
  map ballot
    (merge_referendum_and_areas
       [mkBallotRow (Some "7") (TownInt 1) 100 20 10 40 30;
        mkBallotRow (Some "ZA") (TownInt 2) 50 30 5 10 5]
       [mkAreaRow (Some "84") (Some "Region A") (Some "07") (Some "Ardeche");
        mkAreaRow (Some "11") (Some "Region B") (Some "75") (Some "Paris")])
  = drop_Z_ballots
      [mkBallotRow (Some "7") (TownInt 1) 100 20 10 40 30;
       mkBallotRow (Some "ZA") (TownInt 2) 50 30 5 10 5].
Proof.
  apply (merged_ballots_are_the_filtered_referendum
           [mkBallotRow (Some "7") (TownInt 1) 100 20 10 40 30;
            mkBallotRow (Some "ZA") (TownInt 2) 50 30 5 10 5]
           [mkAreaRow (Some "84") (Some "Region A") (Some "07")
              (Some "Ardeche");
            mkAreaRow (Some "11") (Some "Region B") (Some "75")
              (Some "Paris")]).
  apply (bool_decide_unpack _). reflexivity.
Defined.

(** X6.  In a row of the merged table, either the four area columns are
    missing and no row of the normalised lookup table has the ballot's
    department code, or the area columns are those of a lookup row that the
    three-digit filter kept, with its normalised code, and that code is the
    ballot's department code exactly as the ballot table holds it (the
    ballot's code is not normalised). *)
Theorem merged_row_is_unmatched_or_joined_on_equal_codes
    (referendum : list BallotRow) (areas : list AreaRow) (j : JoinedRow) :
  j ∈ merge_referendum_and_areas referendum areas ->
  (area j = null_area
   /\ forall a, a ∈ normalize_areas areas ->
                code_dep a <> Department_code (ballot j))
  \/ (exists a, a ∈ areas
        /\ fullmatch_d3 (str_strip (astype_str (code_dep a))) = false
        /\ area j = assign_code_dep a (Some (normalize_code (code_dep a)))
        /\ Department_code (ballot j) = Some (normalize_code (code_dep a))).
Proof.
  intros H. apply list_elem_of_In, merge_referendum_and_areas_In in H.
  destruct H as (b & _ & _ & [[E ->]|(a' & Ia' & K & ->)]).
  - left. split; [reflexivity|]. simpl. intros a Ha E'.
    apply list_elem_of_In in Ha.
    assert (I : In a (matches Department_code code_dep b
                        (normalize_areas areas)))
      by (apply matches_In; auto).
    rewrite E in I. destruct I.
  - right. apply normalize_areas_In in Ia' as (a & Ia & D & ->).
    exists a. simpl in *. rewrite list_elem_of_In. auto.
Qed.

Lemma merged_row_is_unmatched_or_joined_on_equal_codes_witness :
  (null_area = null_area
   /\ forall a,
        a ∈ normalize_areas
              [mkAreaRow (Some "84") (Some "Region A") (Some "07")
                 (Some "Ardeche")] ->
        code_dep a <> Some " 7")
  \/ (exists a,
        a ∈ [mkAreaRow (Some "84") (Some "Region A") (Some "07")
               (Some "Ardeche")]
        /\ fullmatch_d3 (str_strip (astype_str (code_dep a))) = false
        /\ null_area = assign_code_dep a (Some (normalize_code (code_dep a)))
        /\ Some " 7" = Some (normalize_code (code_dep a))).
Proof.
  apply (merged_row_is_unmatched_or_joined_on_equal_codes
           [mkBallotRow (Some " 7") (TownInt 1) 100 20 10 40 30]
           [mkAreaRow (Some "84") (Some "Region A") (Some "07")
              (Some "Ardeche")]
           (mkJoinedRow (mkBallotRow (Some " 7") (TownInt 1) 100 20 10 40 30)
              null_area)).
  apply list_elem_of_In. left. reflexivity.
Defined.

Lemma all_decimal_zeros (n : nat) (s : string) :
  all_decimal (zeros n +:+ s) = all_decimal s.
Proof.
  induction n as [|n IH]; [reflexivity|].
  simpl zeros. rewrite append_cons. simpl. exact IH.
Qed.

Lemma lstrip_zeros_zeros (n : nat) (s : string) :
  lstrip_zeros (zeros n +:+ s) = lstrip_zeros s.
Proof.
  induction n as [|n IH]; [reflexivity|].
  simpl zeros. rewrite append_cons. simpl. exact IH.
Qed.

Lemma length_zeros (n : nat) (s : string) :
  String.length (zeros n +:+ s) = (n + String.length s)%nat.
Proof.
  induction n as [|n IH]; [reflexivity|].
  simpl zeros. rewrite append_cons. simpl. now rewrite IH.
Qed.

(** X7.  The three-digit test reads the code before its leading zeros are
    stripped: a lookup code made of one or more zeros followed by three
    digits, the first of them not zero, is not dropped, and its normalised
    code is those three digits.  So the normalised lookup table can hold
    three-digit codes. *)
Theorem zero_padded_three_digit_code_is_kept
    (t1 t2 : list AreaRow) (a : AreaRow) (n : nat) (c1 c2 c3 : ascii) :
  is_decimal c1 = true -> is_decimal c2 = true -> is_decimal c3 = true ->
  Ascii.eqb c1 "0" = false ->
  code_dep a
  = Some (zeros (S n) +:+ String c1 (String c2 (String c3 EmptyString))) ->
  normalize_areas (t1 ++ a :: t2)
  = normalize_areas t1
    ++ [assign_code_dep a
          (Some (String c1 (String c2 (String c3 EmptyString))))]
    ++ normalize_areas t2
  /\ fullmatch_d3 (String c1 (String c2 (String c3 EmptyString))) = true.
Proof.
  intros H1 H2 H3 Hz Ha.
  set (d := String c1 (String c2 (String c3 EmptyString))) in *.
  assert (Dd : all_decimal d = true) by (simpl; now rewrite H1, H2, H3).
  assert (D : all_decimal (zeros (S n) +:+ d) = true)
    by now rewrite all_decimal_zeros.
  split; [|unfold fullmatch_d3; now rewrite Dd].
  rewrite normalize_areas_app, normalize_areas_cons.
  unfold stripped_code. rewrite Ha. unfold astype_str.
  rewrite (all_decimal_strip _ D).
  assert (F3 : fullmatch_d3 (zeros (S n) +:+ d) = false).
  { unfold fullmatch_d3. rewrite D, length_zeros. simpl.
    apply Nat.eqb_neq. lia. }
  rewrite F3. unfold unpad, fullmatch_dplus. rewrite D. simpl negb.
  rewrite lstrip_zeros_zeros. unfold d at 2. simpl lstrip_zeros.
  rewrite Hz. reflexivity.
Qed.

Lemma zero_padded_three_digit_code_is_kept_witness :
  normalize_areas
    ([] ++ mkAreaRow (Some "01") (Some "Guadeloupe") (Some "0971")
             (Some "Guadeloupe") :: [])
  = normalize_areas []
    ++ [assign_code_dep
          (mkAreaRow (Some "01") (Some "Guadeloupe") (Some "0971")
             (Some "Guadeloupe")) (Some "971")]
    ++ normalize_areas []
  /\ fullmatch_d3 "971" = true.
Proof.
  apply (zero_padded_three_digit_code_is_kept [] []
           (mkAreaRow (Some "01") (Some "Guadeloupe") (Some "0971")
              (Some "Guadeloupe")) 0 "9" "7" "1");
    reflexivity.
Defined.

(** X8.  When every code of the lookup table is three digits after
    stripping (in particular when the table is empty), the lookup table is
    emptied by the filter and every ballot without "Z" is kept once, with
    the four area columns missing. *)
Theorem no_area_when_every_lookup_code_has_three_digits
    (referendum : list BallotRow) (areas : list AreaRow) :
  (forall a, a ∈ areas ->
             fullmatch_d3 (str_strip (astype_str (code_dep a))) = true) ->
  merge_referendum_and_areas referendum areas
  = map (fun b => mkJoinedRow b null_area) (drop_Z_ballots referendum).
Proof.
  intros H.
  assert (E : normalize_areas areas = []).
  { induction areas as [|a areas IH]; [reflexivity|].
    rewrite normalize_areas_cons. unfold stripped_code.
    rewrite H by (now left). simpl. apply IH.
    intros a' Ha'. apply H. now right. }
  unfold merge_referendum_and_areas. rewrite E.
  induction (drop_Z_ballots referendum) as [|b bs IH]; [reflexivity|].
  simpl. f_equal.
Qed.

Lemma no_area_when_every_lookup_code_has_three_digits_witness :
  merge_referendum_and_areas
    [mkBallotRow (Some "971") (TownInt 1) 100 20 10 40 30]
    [mkAreaRow (Some "01") (Some "Guadeloupe") (Some "971")
       (Some "Guadeloupe")]
  = map (fun b => mkJoinedRow b null_area)
      (drop_Z_ballots [mkBallotRow (Some "971") (TownInt 1) 100 20 10 40 30]).
Proof.
  apply (no_area_when_every_lookup_code_has_three_digits
           [mkBallotRow (Some "971") (TownInt 1) 100 20 10 40 30]
           [mkAreaRow (Some "01") (Some "Guadeloupe") (Some "971")
              (Some "Guadeloupe")]).
  intros a Ha. apply list_elem_of_In in Ha. simpl in Ha.
  destruct Ha as [<-|[]]. reflexivity.
Defined.

(** ** [compute_referendum_result_by_regions] *)

Lemma ascii_compare_N (a b : ascii) :
  Ascii.compare a b = (N_of_ascii a ?= N_of_ascii b)%N.
Proof. reflexivity. Qed.

Lemma string_compare_trans (c : comparison) (s1 s2 s3 : string) :
  c <> Eq ->
  String.compare s1 s2 = c \/ String.compare s1 s2 = Eq ->
  String.compare s2 s3 = c \/ String.compare s2 s3 = Eq ->
  String.compare s1 s3 = c \/ String.compare s1 s3 = Eq.
Proof.
  intros Hc. revert s2 s3.
  induction s1 as [|c1 s1 IH]; intros [|c2 s2] [|c3 s3]; simpl; auto;
    try (intros [H|H] [H'|H']; congruence).
  rewrite !ascii_compare_N.
  destruct (N.compare_spec (N_of_ascii c1) (N_of_ascii c2)) as [E12|L12|L12];
    destruct (N.compare_spec (N_of_ascii c2) (N_of_ascii c3)) as [E23|L23|L23];
    destruct (N.compare_spec (N_of_ascii c1) (N_of_ascii c3)) as [E13|L13|L13];
    try lia; auto; try (apply IH);
    try (intros [H|H] [H'|H']; congruence).
Qed.

Lemma string_leb_trans (s1 s2 s3 : string) :
  String.leb s1 s2 = true -> String.leb s2 s3 = true ->
  String.leb s1 s3 = true.
Proof.
  unfold String.leb. intros H12 H23.
  destruct (string_compare_trans Lt s1 s2 s3) as [H|H]; try discriminate.
  - destruct (String.compare s1 s2); auto; discriminate.
  - destruct (String.compare s2 s3); auto; discriminate.
  - now rewrite H.
  - now rewrite H.
Qed.

Lemma string_leb_neq_ltb (s1 s2 : string) :
  String.leb s1 s2 = true -> s1 <> s2 -> String.ltb s1 s2 = true.
Proof.
  unfold String.leb, String.ltb. intros H Hne.
  destruct (String.compare s1 s2) eqn:E; try discriminate; [|reflexivity].
  now apply String.compare_eq_iff in E.
Qed.

Lemma group_keys_sorted (t : list JoinedRow) :
  StronglySorted (fun a b => Is_true (String.leb a b)) (group_keys t).
Proof.
  unfold group_keys.
  apply (@StronglySorted_merge_sort _ (fun a b => Is_true (String.leb a b))).
  - intros x y z Hxy Hyz. apply Is_true_true.
    apply Is_true_true in Hxy, Hyz. eapply string_leb_trans; eauto.
  - intros x y. destruct (String.leb_total x y) as [H|H];
      [left | right]; now apply Is_true_true.
Qed.

Lemma strongly_sorted_strict (l : list string) :
  StronglySorted (fun a b => Is_true (String.leb a b)) l -> NoDup l ->
  StronglySorted (fun a b => String.ltb a b = true) l.
Proof.
  induction 1 as [|x l Hl IH Hx]; intros Hnd; constructor.
  - apply IH. now apply NoDup_cons in Hnd as [_ ?].
  - apply NoDup_cons in Hnd as [Hnx _].
    rewrite Forall_forall in Hx |- *. intros y Hy.
    apply string_leb_neq_ltb.
    + apply Is_true_true. now apply Hx.
    + intros ->. contradiction.
Qed.

(** X9.  The rows of the aggregate come in strictly increasing order of
    their region code, for the order of strings by code points (the order
    that [groupby] sorts its keys with). *)
Theorem result_rows_are_sorted_by_region_code (t : list JoinedRow) :
  StronglySorted (fun a b => String.ltb a b = true)
    (map res_code_reg (compute_referendum_result_by_regions t)).
Proof.
  rewrite result_keys.
  apply strongly_sorted_strict;
    [apply group_keys_sorted | apply group_keys_NoDup].
Qed.

Lemma agg_first_skip (l1 l2 : list (option string)) :
  (forall x, In x l1 -> x = None) -> agg_first (l1 ++ l2) = agg_first l2.
Proof.
  induction l1 as [|x l1 IH]; intros H; [reflexivity|].
  simpl. rewrite (H x) by now left. apply IH. intros y Hy. apply H. now right.
Qed.

Lemma result_row_In (t : list JoinedRow) (row : ResultRow) :
  In row (compute_referendum_result_by_regions t) ->
  row = aggregate (res_code_reg row)
          (town_code_as_str (group_rows (res_code_reg row) t)).
Proof.
  unfold compute_referendum_result_by_regions, groupby_code_reg_agg.
  intros H. apply in_map_iff in H as (k & <- & _). simpl.
  now rewrite group_rows_town.
Qed.

(** X10.  The region name of a result row is the name of the first input
    row of that region, in input order, whose name is not missing; it is
    missing when every row of the region has a missing name. *)
Theorem region_name_is_the_first_that_is_not_missing
    (t : list JoinedRow) (row : ResultRow) :
  row ∈ compute_referendum_result_by_regions t ->
  (forall g1 r g2 n,
     group_rows (res_code_reg row) t = g1 ++ r :: g2 ->
     (forall x, x ∈ g1 -> name_reg (area x) = None) ->
     name_reg (area r) = Some n ->
     res_name_reg row = Some n)
  /\ ((forall x, x ∈ group_rows (res_code_reg row) t ->
                 name_reg (area x) = None) ->
      res_name_reg row = None).
Proof.
  intros Hrow. apply list_elem_of_In, result_row_In in Hrow.
  assert (E : res_name_reg row
              = agg_first (map (fun r => name_reg (area r))
                             (group_rows (res_code_reg row) t))).
  { rewrite Hrow at 1. simpl. unfold town_code_as_str.
    now rewrite map_map. }
  split.
  - intros g1 r g2 n Hg Hnone Hn. rewrite E, Hg, map_app, agg_first_skip.
    + simpl. now rewrite Hn.
    + intros x Hx. apply in_map_iff in Hx as (y & <- & Hy).
      now apply Hnone, list_elem_of_In.
  - intros Hnone. rewrite E.
    rewrite <- (app_nil_r (map _ _)), agg_first_skip; [reflexivity|].
    intros x Hx. apply in_map_iff in Hx as (y & <- & Hy).
    now apply Hnone, list_elem_of_In.
Qed.

Lemma region_name_is_the_first_that_is_not_missing_witness :
  res_name_reg (mkResultRow "84" (Some "Region A") 150 50 15 50 35)
  = Some "Region A".
Proof.
  refine (proj1 (region_name_is_the_first_that_is_not_missing
            [mkJoinedRow (mkBallotRow (Some "7") (TownInt 1) 100 20 10 40 30)
               (mkAreaRow (Some "84") None (Some "7") (Some "Dept X"));
             mkJoinedRow (mkBallotRow (Some "7") (TownInt 2) 50 30 5 10 5)
               (mkAreaRow (Some "84") (Some "Region A") (Some "7")
                  (Some "Dept X"))]
            (mkResultRow "84" (Some "Region A") 150 50 15 50 35) _)
            [mkJoinedRow (mkBallotRow (Some "7") (TownInt 1) 100 20 10 40 30)
               (mkAreaRow (Some "84") None (Some "7") (Some "Dept X"))]
            (mkJoinedRow (mkBallotRow (Some "7") (TownInt 2) 50 30 5 10 5)
               (mkAreaRow (Some "84") (Some "Region A") (Some "7")
                  (Some "Dept X")))
            [] "Region A" eq_refl _ eq_refl).
  - apply list_elem_of_In. left. reflexivity.
  - intros x Hx. apply list_elem_of_In in Hx. destruct Hx as [<-|[]].
    reflexivity.
Defined.

Lemma town_astype_str_idem (c : town_cell) :
  town_astype_str (town_astype_str c) = town_astype_str c.
Proof. now destruct c. Qed.

Lemma town_code_as_str_idem (t : list JoinedRow) :
  town_code_as_str (town_code_as_str t) = town_code_as_str t.
Proof.
  unfold town_code_as_str. rewrite map_map. apply map_ext. intros r. simpl.
  now rewrite town_astype_str_idem.
Qed.

(** X11.  The in-place conversion of "Town code" happens once: a second
    call on the same frame returns a table equal to the first result and
    leaves every frame of the store as the first call left it, the argument
    included. *)
Theorem second_call_changes_nothing
    (st st1 : Store) (p r1 : ref) (t : list JoinedRow) :
  st !! p = Some (FJoined t) ->
  call_compute_referendum_result_by_regions p st = Some (r1, st1) ->
  exists r2 st2,
    call_compute_referendum_result_by_regions p st1 = Some (r2, st2)
    /\ (forall q f, st1 !! q = Some f -> st2 !! q = Some f)
    /\ st2 !! r2 = st1 !! r1
    /\ st1 !! r1 = Some (FResult (compute_referendum_result_by_regions t)).
Proof.
  intros Hp Hcall.
  rewrite (call_compute_referendum_result_by_regions_run _ _ _ Hp) in Hcall.
  injection Hcall as <- <-.
  pose proof (lookup_lt_Some _ _ _ Hp) as Hlt.
  assert (Hp1 : (<[p:=FJoined (town_code_as_str t)]> st
                 ++ [FResult (compute_referendum_result_by_regions t)]) !! p
                = Some (FJoined (town_code_as_str t))).
  { apply lookup_app_l_Some. now apply list_lookup_insert_eq. }
  eexists _, _.
  split; [exact (call_compute_referendum_result_by_regions_run _ _ _ Hp1)|].
  assert (R1 : (<[p:=FJoined (town_code_as_str t)]> st
                ++ [FResult (compute_referendum_result_by_regions t)])
               !! length st
               = Some (FResult (compute_referendum_result_by_regions t))).
  { rewrite lookup_app_r by (rewrite length_insert; lia).
    now rewrite length_insert, Nat.sub_diag. }
  rewrite town_code_as_str_idem, (list_insert_id _ _ _ Hp1).
  split; [|split; [|exact R1]].
  - intros q f Hq. now apply lookup_app_l_Some.
  - rewrite R1. rewrite lookup_app_r by lia. rewrite Nat.sub_diag. simpl.
    unfold compute_referendum_result_by_regions.
    now rewrite town_code_as_str_idem.
Qed.

Lemma second_call_changes_nothing_witness :
  exists r2 st2,
    call_compute_referendum_result_by_regions 0%nat
      [FJoined [mkJoinedRow
                  (mkBallotRow (Some "7") (TownStr "1") 100 20 10 40 30)
                  (mkAreaRow (Some "84") (Some "Region A") (Some "7")
                     (Some "Dept X"))];
       FResult [mkResultRow "84" (Some "Region A") 100 20 10 40 30]]
    = Some (r2, st2)
    /\ (forall q f,
          [FJoined [mkJoinedRow
                      (mkBallotRow (Some "7") (TownStr "1") 100 20 10 40 30)
                      (mkAreaRow (Some "84") (Some "Region A") (Some "7")
                         (Some "Dept X"))];
           FResult [mkResultRow "84" (Some "Region A") 100 20 10 40 30]]
          !! q = Some f -> st2 !! q = Some f)
    /\ st2 !! r2
       = [FJoined [mkJoinedRow
                     (mkBallotRow (Some "7") (TownStr "1") 100 20 10 40 30)
                     (mkAreaRow (Some "84") (Some "Region A") (Some "7")
                        (Some "Dept X"))];
          FResult [mkResultRow "84" (Some "Region A") 100 20 10 40 30]]
         !! 1%nat
    /\ [FJoined [mkJoinedRow
                   (mkBallotRow (Some "7") (TownStr "1") 100 20 10 40 30)
                   (mkAreaRow (Some "84") (Some "Region A") (Some "7")
                      (Some "Dept X"))];
        FResult [mkResultRow "84" (Some "Region A") 100 20 10 40 30]]
       !! 1%nat
       = Some (FResult
                 (compute_referendum_result_by_regions
                    [mkJoinedRow
                       (mkBallotRow (Some "7") (TownInt 1) 100 20 10 40 30)
                       (mkAreaRow (Some "84") (Some "Region A") (Some "7")
                          (Some "Dept X"))])).
Proof.
  apply (second_call_changes_nothing
           [FJoined [mkJoinedRow
                       (mkBallotRow (Some "7") (TownInt 1) 100 20 10 40 30)
                       (mkAreaRow (Some "84") (Some "Region A") (Some "7")
                          (Some "Dept X"))]]
           _ 0%nat 1%nat
           [mkJoinedRow (mkBallotRow (Some "7") (TownInt 1) 100 20 10 40 30)
              (mkAreaRow (Some "84") (Some "Region A") (Some "7")
                 (Some "Dept X"))]);
    reflexivity.
Defined.

Lemma group_rows_Permutation (k : string) (t t' : list JoinedRow) :
  t ≡ₚ t' -> group_rows k t ≡ₚ group_rows k t'.
Proof.
  unfold group_rows. induction 1 as [|x l l' _ IH|x y l|l l' l'' _ IH1 _ IH2];
    simpl.
  - reflexivity.
  - destruct (key_eqb (joined_code_reg x) (Some k)); [now constructor | exact IH].
  - destruct (key_eqb (joined_code_reg x) (Some k)),
             (key_eqb (joined_code_reg y) (Some k));
      try reflexivity. apply perm_swap.
  - now transitivity (List.filter
                        (fun r => key_eqb (joined_code_reg r) (Some k)) l').
Qed.

Lemma sumZ_Permutation (l l' : list Z) : l ≡ₚ l' -> sumZ l = sumZ l'.
Proof. induction 1; simpl; lia. Qed.

Lemma group_keys_Permutation (t t' : list JoinedRow) :
  t ≡ₚ t' -> group_keys t = group_keys t'.
Proof.
  intros H.
  apply (StronglySorted_unique_strong (fun a b => Is_true (String.leb a b)));
    try apply group_keys_sorted.
  - intros x y _ _ Hxy Hyx. apply Is_true_true in Hxy, Hyx.
    now apply String.leb_antisym.
  - apply NoDup_Permutation; try apply group_keys_NoDup.
    intros k. rewrite !group_keys_elem.
    split; intros (r & Hr & E); exists r; split; auto.
    + now rewrite <- H.
    + now rewrite H.
Qed.

(** X12.  The region codes and the five sums of the aggregate do not depend
    on the order of the rows of the merged table (the region name can: it
    is taken from the first row). *)
Theorem result_counts_do_not_depend_on_row_order (t t' : list JoinedRow) :
  t ≡ₚ t' ->
  map (fun r => (res_code_reg r, res_Registered r, res_Abstentions r,
                 res_Null r, res_Choice_A r, res_Choice_B r))
    (compute_referendum_result_by_regions t)
  = map (fun r => (res_code_reg r, res_Registered r, res_Abstentions r,
                   res_Null r, res_Choice_A r, res_Choice_B r))
      (compute_referendum_result_by_regions t').
Proof.
  intros H.
  unfold compute_referendum_result_by_regions, groupby_code_reg_agg.
  rewrite !map_map, !group_keys_town, (group_keys_Permutation t t' H).
  apply map_ext. intros k. simpl. unfold agg_sum.
  rewrite !group_rows_town, !town_code_as_str_count, !sum64_sumZ.
  assert (S : forall c, sumZ (map (joined_count c) (group_rows k t))
                        = sumZ (map (joined_count c) (group_rows k t'))).
  { intros c. apply sumZ_Permutation, Permutation_map.
    now apply group_rows_Permutation. }
  now rewrite !S.
Qed.

Lemma result_counts_do_not_depend_on_row_order_witness :
  map (fun r => (res_code_reg r, res_Registered r, res_Abstentions r,
                 res_Null r, res_Choice_A r, res_Choice_B r))
    (compute_referendum_result_by_regions
       [mkJoinedRow (mkBallotRow (Some "7") (TownInt 1) 100 20 10 40 30)
          (mkAreaRow (Some "84") (Some "Region A") (Some "7") None);
        mkJoinedRow (mkBallotRow (Some "75") (TownInt 2) 50 30 5 10 5)
          (mkAreaRow (Some "11") (Some "Region B") (Some "75") None)])
  = map (fun r => (res_code_reg r, res_Registered r, res_Abstentions r,
                   res_Null r, res_Choice_A r, res_Choice_B r))
      (compute_referendum_result_by_regions
         [mkJoinedRow (mkBallotRow (Some "75") (TownInt 2) 50 30 5 10 5)
            (mkAreaRow (Some "11") (Some "Region B") (Some "75") None);
          mkJoinedRow (mkBallotRow (Some "7") (TownInt 1) 100 20 10 40 30)
            (mkAreaRow (Some "84") (Some "Region A") (Some "7") None)]).
Proof.
  apply (result_counts_do_not_depend_on_row_order
           [mkJoinedRow (mkBallotRow (Some "7") (TownInt 1) 100 20 10 40 30)
              (mkAreaRow (Some "84") (Some "Region A") (Some "7") None);
            mkJoinedRow (mkBallotRow (Some "75") (TownInt 2) 50 30 5 10 5)
              (mkAreaRow (Some "11") (Some "Region B") (Some "75") None)]).
  apply perm_swap.
Defined.

(** X13.  The aggregate is empty exactly when no row of the merged table
    has a region code (in particular for an empty table); the call raises
    no error then. *)
Theorem result_is_empty_iff_no_row_has_a_region (t : list JoinedRow) :
  compute_referendum_result_by_regions t = [] <->
  forall r, r ∈ t -> joined_code_reg r = None.
Proof.
  split.
  - intros E r Hr. destruct (joined_code_reg r) as [k|] eqn:K; [|reflexivity].
    assert (Hk : k ∈ group_keys t) by (apply group_keys_elem; eauto).
    rewrite <- result_keys, E in Hk. now apply elem_of_nil in Hk.
  - intros H.
    destruct (compute_referendum_result_by_regions t) as [|row rows] eqn:E;
      [reflexivity|].
    assert (Hk : res_code_reg row ∈ group_keys t)
      by (rewrite <- result_keys, E; left).
    apply group_keys_elem in Hk as (r & Hr & K).
    rewrite (H r Hr) in K. discriminate.
Qed.

(** ** [plot_referendum_map] *)

(** X14.  The rows of the map table are exactly the pairs of a geometry row
    and a result row with the same region code, with the ratio of that
    result row: a region without geometry and a geometry without result (or
    with a missing code) give no row. *)
Theorem map_rows_pair_a_geometry_with_its_result
    (gdf : list GeoRow) (res : list ResultRow) (row : MapRow) :
  row ∈ plot_referendum_map gdf res <->
  exists g r, g ∈ gdf /\ r ∈ res
              /\ geo_code_reg g = Some (res_code_reg r)
              /\ row = mkMapRow g r
                         (compute_ratio (res_Choice_A r) (res_Choice_B r)).
Proof.
  unfold plot_referendum_map, with_ratio, merge_geo.
  rewrite list_elem_of_In, in_map_iff. split.
  - intros ([g r] & <- & H). apply merge_inner_In in H.
    destruct H as (g' & r' & Hg & Hr & K & E). injection E as -> ->.
    exists g', r'. rewrite !list_elem_of_In. auto.
  - intros (g & r & Hg & Hr & K & ->). exists (g, r). split; [reflexivity|].
    apply merge_inner_In. exists g, r. rewrite <- !list_elem_of_In. auto.
Qed.

(** X15.  On the aggregate that [compute_referendum_result_by_regions]
    returns, the join keeps the geometry rows in their order and uses each
    of them at most once: the geometry column of the map table is a
    sub-list of the geometry table. *)
Theorem map_of_the_aggregate_uses_each_geometry_once
    (gdf : list GeoRow) (t : list JoinedRow) :
  map map_geo (plot_referendum_map gdf (compute_referendum_result_by_regions t))
  `sublist_of` gdf.
Proof.
  unfold plot_referendum_map, with_ratio, merge_geo.
  rewrite map_map. simpl.
  apply (merge_inner_unique_sublist geo_code_reg
           (fun r => Some (res_code_reg r)) pair fst); [reflexivity|].
  rewrite <- (map_map res_code_reg Some), result_keys.
  apply (NoDup_fmap_2 Some), group_keys_NoDup.
Qed.

Lemma float_of_int64_finite (a : Z) :
  0 < a < 2 ^ 63 ->
  exists M E, float_of_int64 a = S754_finite false M E
              /\ 2 ^ 52 <= Zpos M < 2 ^ 53 /\ -52 <= E <= 11.
Proof.
  intros H. rewrite (float_of_int64_spec a H).
  pose proof (mant_expo_bounds a H) as [Hm He].
  exists (Z.to_pos (mant a)), (expo a). rewrite Z2Pos.id by lia. auto.
Qed.

Lemma float64_div_self (M : positive) (E : Z) :
  2 ^ 52 <= Zpos M < 2 ^ 53 -> -52 <= E <= 11 ->
  float64_div (S754_finite false M E) (S754_finite false M E) = float_one.
Proof.
  intros HM HE. unfold float64_div, SFdiv. rewrite div_core by lia.
  rewrite (Z.mul_comm (Zpos M)), Z.div_mul, Z.mod_mul by lia.
  rewrite new_location_zero. replace (E - E - 53) with (-53) by lia.
  reflexivity.
Qed.

(** X16.  With counts below [2^63], a region where only "Choice A" has
    votes gets the ratio 1.0 exactly, and a region where only "Choice B"
    has votes gets the ratio 0.0 exactly. *)
Theorem unanimous_regions_have_ratio_one_or_zero
    (gdf : list GeoRow) (res : list ResultRow) (row : MapRow) :
  row ∈ plot_referendum_map gdf res ->
  (0 < res_Choice_A (map_res row) < 2 ^ 63 ->
   res_Choice_B (map_res row) = 0 -> ratio row = float_one)
  /\ (res_Choice_A (map_res row) = 0 ->
      0 < res_Choice_B (map_res row) < 2 ^ 63 -> ratio row = float_zero).
Proof.
  intros Hrow.
  apply list_elem_of_In, plot_referendum_map_In in Hrow as (_ & _ & ->).
  unfold compute_ratio, add64. split.
  - intros HA ->. rewrite Z.add_0_r.
    rewrite wrap64_small by (unfold int64_range; lia).
    destruct (float_of_int64_finite _ HA) as (M & E & -> & HM & HE).
    now apply float64_div_self.
  - intros -> HB. rewrite Z.add_0_l.
    rewrite wrap64_small by (unfold int64_range; lia).
    destruct (float_of_int64_finite _ HB) as (M & E & -> & _). reflexivity.
Qed.

Lemma unanimous_regions_have_ratio_one_or_zero_witness :
  compute_ratio 40 0 = float_one /\ compute_ratio 0 30 = float_zero.
Proof.
  split.
  - refine (proj1 (unanimous_regions_have_ratio_one_or_zero
              [mkGeoRow (Some "84") "POLYGON"]
              [mkResultRow "84" (Some "Region A") 100 50 10 40 0]
              (mkMapRow (mkGeoRow (Some "84") "POLYGON")
                 (mkResultRow "84" (Some "Region A") 100 50 10 40 0)
                 (compute_ratio 40 0)) _) _ eq_refl).
    + apply list_elem_of_In. left. reflexivity.
    + simpl. lia.
  - refine (proj2 (unanimous_regions_have_ratio_one_or_zero
              [mkGeoRow (Some "84") "POLYGON"]
              [mkResultRow "84" (Some "Region A") 100 60 10 0 30]
              (mkMapRow (mkGeoRow (Some "84") "POLYGON")
                 (mkResultRow "84" (Some "Region A") 100 60 10 0 30)
                 (compute_ratio 0 30)) _) eq_refl _).
    + apply list_elem_of_In. left. reflexivity.
    + simpl. lia.
Defined.

(** X17.  A zero denominator with a positive numerator (possible only with
    a negative "Choice B") does not raise either: the ratio is the float
    +infinity. *)
Theorem zero_denominator_with_positive_numerator_is_infinite
    (gdf : list GeoRow) (res : list ResultRow) (row : MapRow) :
  row ∈ plot_referendum_map gdf res ->
  0 < res_Choice_A (map_res row) < 2 ^ 63 ->
  res_Choice_B (map_res row) = - res_Choice_A (map_res row) ->
  ratio row = S754_infinity false.
Proof.
  intros Hrow HA HB.
  apply list_elem_of_In, plot_referendum_map_In in Hrow as (_ & _ & ->).
  unfold compute_ratio, add64. rewrite HB, Z.add_opp_diag_r.
  destruct (float_of_int64_finite _ HA) as (M & E & -> & _). reflexivity.
Qed.

Lemma zero_denominator_with_positive_numerator_is_infinite_witness :
  compute_ratio 40 (-40) = S754_infinity false.
Proof.
  refine (zero_denominator_with_positive_numerator_is_infinite
            [mkGeoRow (Some "84") "POLYGON"]
            [mkResultRow "84" (Some "Region A") 100 50 10 40 (-40)]
            (mkMapRow (mkGeoRow (Some "84") "POLYGON")
               (mkResultRow "84" (Some "Region A") 100 50 10 40 (-40))
               (compute_ratio 40 (-40))) _ _ eq_refl).
  - apply list_elem_of_In. left. reflexivity.
  - simpl. lia.
Defined.

(** ** The stages together *)

Lemma result_sum64 (t : list JoinedRow) (c : CountColumn) :
  sum64 (map (result_count c) (compute_referendum_result_by_regions t))
  = sum64 (map (joined_count c) (retained_rows t)).
Proof.
  rewrite result_column, !sum64_sumZ.
  rewrite (map_ext _ (fun k => wrap64 (group_total (joined_count c) t k)))
    by (intros k; apply sum64_sumZ).
  rewrite wrap64_sumZ_map. f_equal.
  apply groups_partition; [apply group_keys_NoDup|].
  intros r k Hr Hk. now apply (group_keys_cover t r k).
Qed.

Lemma retained_rows_app (t1 t2 : list JoinedRow) :
  retained_rows (t1 ++ t2) = retained_rows t1 ++ retained_rows t2.
Proof. apply List.filter_app. Qed.

Lemma retained_merged_counts (referendum : list BallotRow)
    (areas : list AreaRow) (c : CountColumn) :
  NoDup (map code_dep (normalize_areas areas)) ->
  map (joined_count c)
    (retained_rows (merge_referendum_and_areas referendum areas))
  = map (ballot_count c) (List.filter (reaches_a_region areas) referendum).
Proof.
  intros Hnd. induction referendum as [|b bs IH]; [reflexivity|].
  change (b :: bs) with ([b] ++ bs).
  rewrite merge_referendum_and_areas_app, retained_rows_app, map_app, IH.
  rewrite List.filter_app, map_app. f_equal.
  unfold merge_referendum_and_areas, drop_Z_ballots, reaches_a_region.
  simpl.
  destruct (str_contains_Z_na_false (Department_code b)); [reflexivity|].
  simpl. unfold merge_left. simpl. rewrite app_nil_r.
  pose proof (matches_unique Department_code code_dep b
                (normalize_areas areas) Hnd) as Hlen.
  destruct (matches Department_code code_dep b (normalize_areas areas))
    as [|a [|a' ms]]; simpl in *; [reflexivity | | lia].
  unfold retained_rows, has_region, joined_code_reg. simpl.
  now destruct (code_reg a).
Qed.

(** X18.  The two middle stages together: when the normalised codes of the
    lookup table are pairwise distinct, each count column of the aggregate
    sums (as an int64 sum) to the sum of that column over the ballots whose
    department code has no "Z" and is the normalised code of a lookup row
    with a region code.  No such ballot is counted twice and no other ballot
    is counted. *)
Theorem aggregate_totals_are_those_of_the_matched_ballots
    (referendum : list BallotRow) (areas : list AreaRow) (c : CountColumn) :
  NoDup (map code_dep (normalize_areas areas)) ->
  sum64 (map (result_count c)
           (compute_referendum_result_by_regions
              (merge_referendum_and_areas referendum areas)))
  = sum64 (map (ballot_count c)
             (List.filter (reaches_a_region areas) referendum)).
Proof.
  intros Hnd. rewrite result_sum64. f_equal.
  now apply retained_merged_counts.
Qed.

Lemma aggregate_totals_are_those_of_the_matched_ballots_witness :
  sum64 (map (result_count ColRegistered)
           (compute_referendum_result_by_regions
              (merge_referendum_and_areas
                 [mkBallotRow (Some "7") (TownInt 1) 100 20 10 40 30;
                  mkBallotRow (Some "ZA") (TownInt 2) 50 30 5 10 5;
                  mkBallotRow (Some "99") (TownInt 3) 70 30 5 20 15]
                 [mkAreaRow (Some "84") (Some "Region A") (Some "07")
                    (Some "Ardeche")])))
  = sum64 (map (ballot_count ColRegistered)
             (List.filter
                (reaches_a_region
                   [mkAreaRow (Some "84") (Some "Region A") (Some "07")
                      (Some "Ardeche")])
                [mkBallotRow (Some "7") (TownInt 1) 100 20 10 40 30;
                 mkBallotRow (Some "ZA") (TownInt 2) 50 30 5 10 5;
                 mkBallotRow (Some "99") (TownInt 3) 70 30 5 20 15])).
Proof.
  apply (aggregate_totals_are_those_of_the_matched_ballots
           [mkBallotRow (Some "7") (TownInt 1) 100 20 10 40 30;
            mkBallotRow (Some "ZA") (TownInt 2) 50 30 5 10 5;
            mkBallotRow (Some "99") (TownInt 3) 70 30 5 20 15]
           [mkAreaRow (Some "84") (Some "Region A") (Some "07")
              (Some "Ardeche")] ColRegistered).
  apply (bool_decide_unpack _). reflexivity.
Defined.





